(** * PyVisuals: the escape-time core of [mandelbrotset.py]

    A shallow embedding of [mandelbrot_set] (src/mandelbrotset.py, lines 4-35)
    and of the part of [numpy] it calls ([linspace], broadcasting, boolean-mask
    assignment, [greater] with [where=]/[out=], [any]).

    The arithmetic of [float64]/[complex128] is kept behind an interface
    ([FloatOps]): the program is written once over the interface, the
    structural theorems hold for every implementation of it, and two
    implementations are given, IEEE binary64 (the kernel's primitive floats)
    and exact rationals. *)

From Stdlib Require Import ZArith Lia Bool List.
From Stdlib Require Import QArith Qcanon Field.
From Stdlib Require Import Floats.PrimFloat Numbers.Cyclic.Int63.Uint63.
From stdpp Require Import base option list.

Local Open Scope Z_scope.

(** ** Exceptions and results *)

(** [numpy.linspace] raises [ValueError("Number of samples, %s, must be
    non-negative.")]; it is the only exception the function can raise on
    integer [width], [height] and [max_iter]. *)
Inductive exn : Type :=
  | ValueError (num : Z).

Inductive result (A : Type) : Type :=
  | Ok (a : A)
  | Raise (e : exn).
Arguments Ok {A} a.
Arguments Raise {A} e.

(** The call raised an exception. *)
Definition rejected {A : Type} (r : result A) : Prop := exists e, r = Raise e.

#[global] Instance result_ret : MRet result := fun A a => Ok a.
#[global] Instance result_bind : MBind result := fun A B f m =>
  match m with
  | Ok a => f a
  | Raise e => Raise e
  end.

(** ** The arithmetic interface *)

(** The scalar operations the source applies to [float64] values.  [of_int]
    is the conversion of a Python [int] ([arange(0, num, dtype=float)],
    [delta / div]); [feqb] is [==] ([step == 0]); [mag_gt2 a b] is
    [np.greater(np.abs(a + b*1j), 2.0)].  How each operation rounds is left
    to the implementation. *)
Class FloatOps (F : Type) : Type := {
  f0 : F;
  f1 : F;
  fadd : F -> F -> F;
  fsub : F -> F -> F;
  fmul : F -> F -> F;
  fdiv : F -> F -> F;
  fopp : F -> F;
  of_int : Z -> F;
  feqb : F -> F -> bool;
  mag_gt2 : F -> F -> bool
}.

(** [complex128]: a pair of floats. *)
Record complex (F : Type) : Type := Cplx { re : F; im : F }.
Arguments Cplx {F} re im.
Arguments re {F} c.
Arguments im {F} c.

(** ** Two-dimensional arrays *)

(** An array of shape [(rows, columns)] is the list of its rows. *)
Abbreviation grid A := (list (list A)) (only parsing).

Definition grid_map2 {A B C : Type} (f : A -> B -> C)
    (a : grid A) (b : grid B) : grid C :=
  zip_with (zip_with f) a b.

Definition grid_map3 {A B C D : Type} (f : A -> B -> C -> D)
    (a : grid A) (b : grid B) (c : grid C) : grid D :=
  grid_map2 (fun g x => g x) (grid_map2 f a b) c.

(** [np.full(c.shape, v)], [np.zeros(c.shape)], [np.zeros_like(c)]. *)
Definition full_like {A B : Type} (c : grid A) (v : B) : grid B :=
  (fun row : list A => (fun _ => v) <$> row) <$> c.

(** [mask.any()]. *)
Definition grid_any (m : grid bool) : bool := existsb (existsb id) m.

(** Reading cell [(r, col)]. *)
Definition cell {A : Type} (g : grid A) (r col : nat) : option A :=
  g !! r ≫= (.!! col).

(** The shape of an array, as the list of its row lengths. *)
Definition shape {X : Type} (g : grid X) : list nat := length <$> g.

Section Program.
Context {F : Type} `{FloatOps F}.

(** Promotion of a [float64] to [complex128]. *)
Definition of_real (x : F) : complex F := Cplx x f0.

(** The literal [1j]. *)
Definition cj : complex F := Cplx f0 f1.

(** [0j], the entries of [np.zeros_like(c)]. *)
Definition czero : complex F := Cplx f0 f0.

Definition cadd (a b : complex F) : complex F :=
  Cplx (fadd (re a) (re b)) (fadd (im a) (im b)).

(** numpy's complex product: [(ar*br - ai*bi) + (ar*bi + ai*br) j]. *)
Definition cmul (a b : complex F) : complex F :=
  Cplx (fsub (fmul (re a) (re b)) (fmul (im a) (im b)))
       (fadd (fmul (re a) (im b)) (fmul (im a) (re b))).

(** [z**2]: numpy evaluates a power with the scalar exponent 2 as the
    square, [(ar*ar - ai*ai) + (ar*ai + ai*ar) j]. *)
Definition csquare (a : complex F) : complex F := cmul a a.

(** [np.abs(z) > 2.0]. *)
Definition escaped (a : complex F) : bool := mag_gt2 (re a) (im a).

(** ** numpy.linspace(start, stop, num), with [endpoint=True] *)

(** [arange(0, num, dtype=float)]. *)
Definition arange (num : Z) : list F := of_int <$> seqZ 0 num.

(** [y[-1] = stop]. *)
Definition set_last (y : list F) (stop : F) : list F :=
  <[Nat.pred (length y) := stop]> y.

(** numpy's own steps: refuse a negative [num]; [div = num - 1];
    [delta = stop - start]; [y = arange(0, num)]; with [div > 0],
    [step = delta / div] and [y = y * step], or [y = (y / div) * delta] when
    [step == 0]; with [div <= 0], [y = y * delta]; then [y += start], and
    [y[-1] = stop] when [num > 1]. *)
Definition linspace (start stop : F) (num : Z) : result (list F) :=
  if num <? 0 then Raise (ValueError num)
  else
    let div := num - 1 in
    let delta := fsub stop start in
    let y := arange num in
    let y :=
      if 0 <? div then
        let step := fdiv delta (of_int div) in
        if feqb step f0
        then (fun v => fmul (fdiv v (of_int div)) delta) <$> y
        else (fun v => fmul v step) <$> y
      else (fun v => fmul v delta) <$> y in
    let y := (fun v => fadd v start) <$> y in
    Ok (if 1 <? num then set_last y stop else y).

(** [x + y * 1j] on scalars: the entry of [r1 + r2[:,None] * 1j] built from
    the real sample [x] and the imaginary sample [y]. *)
Definition sample (x y : F) : complex F :=
  cadd (of_real x) (cmul (of_real y) cj).

(** [r1 + r2[:,None] * 1j]: [r2[:,None]] has shape [(height, 1)], [r1] has
    shape [(width,)], so the sum has shape [(height, width)] and its entry
    [(r, col)] is [r1[col] + r2[r] * 1j]. *)
Definition sample_grid (r1 r2 : list F) : grid (complex F) :=
  (fun y => (fun x => sample x y) <$> r1) <$> r2.

(** ** The main loop *)

(** The three arrays the loop updates.  [div_time] has an integer dtype; the
    loop stores into it only indices [i] of [range(max_iter)], kept here as
    unbounded integers. *)
Record state : Type := State {
  z : grid (complex F);
  div_time : grid Z;
  mask : grid bool
}.

(** [z[mask] = z[mask]**2 + c[mask]]. *)
Definition update_z (m : bool) (zv cv : complex F) : complex F :=
  if m then cadd (csquare zv) cv else zv.

(** [np.greater(np.abs(z), 2.0, out=np.full(c.shape, False), where=mask)]:
    where [mask] is false the entry of [out], [False], is kept. *)
Definition diverged_at (m : bool) (zv : complex F) : bool :=
  if m then escaped zv else false.

(** [div_time[diverged] = i]. *)
Definition record_at (i : Z) (d : bool) (t : Z) : Z := if d then i else t.

(** [mask[diverged] = False]. *)
Definition clear_at (d : bool) (m : bool) : bool := if d then false else m.

(** One pass through the body of the [for] loop, before the [break] test. *)
Definition body (c : grid (complex F)) (i : Z) (s : state) : state :=
  let z' := grid_map3 update_z (mask s) (z s) c in
  let diverged := grid_map2 diverged_at (mask s) z' in
  let div_time' := grid_map2 (record_at i) diverged (div_time s) in
  let mask' := grid_map2 clear_at diverged (mask s) in
  State z' div_time' mask'.

(** [for i in range(max_iter): body; if not mask.any(): break], started at
    index [i] with [n] indices left. *)
Fixpoint for_loop (c : grid (complex F)) (n : nat) (i : Z) (s : state) : state :=
  match n with
  | O => s
  | S n' =>
      let s' := body c i s in
      if negb (grid_any (mask s')) then s' else for_loop c n' (i + 1) s'
  end.

(** [z = np.zeros_like(c)], [div_time = np.zeros(z.shape, dtype=int)],
    [mask = np.full(c.shape, True, dtype=bool)]. *)
Definition init (c : grid (complex F)) : state :=
  State (full_like c czero) (full_like c 0) (full_like c true).

(** [range(max_iter)] has [max_iter] indices, and none when
    [max_iter <= 0]. *)
Definition mandelbrot_set (xmin xmax ymin ymax : F) (width height max_iter : Z)
    : result (grid Z) :=
  r1 ← linspace xmin xmax width;
  r2 ← linspace ymin ymax height;
  let c := sample_grid r1 r2 in
  mret (div_time (for_loop c (Z.to_nat max_iter) 0 (init c))).

(** ** The loop without the early exit *)

(** The same loop with the line [if not mask.any(): break] removed: all
    [max_iter] passes are made. *)
Fixpoint full_loop (c : grid (complex F)) (n : nat) (i : Z) (s : state) : state :=
  match n with
  | O => s
  | S n' => full_loop c n' (i + 1) (body c i s)
  end.

Definition mandelbrot_set_full (xmin xmax ymin ymax : F)
    (width height max_iter : Z) : result (grid Z) :=
  r1 ← linspace xmin xmax width;
  r2 ← linspace ymin ymax height;
  let c := sample_grid r1 r2 in
  mret (div_time (full_loop c (Z.to_nat max_iter) 0 (init c))).

(** ** One cell at a time *)

(** The three per-cell values the loop carries: the entry of [z], of
    [div_time] and of [mask]. *)
Record point : Type := Point {
  pz : complex F;
  ptime : Z;
  pactive : bool
}.

Definition point_at (s : state) (r col : nat) : option point :=
  zv ← cell (z s) r col;
  t ← cell (div_time s) r col;
  m ← cell (mask s) r col;
  Some (Point zv t m).

(** What one pass of [body] does to one cell whose sample is [cv]. *)
Definition point_step (cv : complex F) (i : Z) (p : point) : point :=
  let z' := update_z (pactive p) (pz p) cv in
  let d := diverged_at (pactive p) z' in
  Point z' (record_at i d (ptime p)) (clear_at d (pactive p)).

Fixpoint point_run (cv : complex F) (n : nat) (i : Z) (p : point) : point :=
  match n with
  | O => p
  | S n' => point_run cv n' (i + 1) (point_step cv i p)
  end.

Definition point_init : point := Point czero 0 true.

(** The value the loop leaves in [div_time] for a cell whose sample is [cv]. *)
Definition escape_value (cv : complex F) (max_iter : Z) : Z :=
  ptime (point_run cv (Z.to_nat max_iter) 0 point_init).

(** The orbit of [0] under [z <- z**2 + c]: [orbit cv k] is [z] after [k]
    updates. *)
Fixpoint orbit (cv : complex F) (k : nat) : complex F :=
  match k with
  | O => czero
  | S k' => cadd (csquare (orbit cv k')) cv
  end.

(** The first [n] updates all leave the magnitude at most 2. *)
Definition stays_bounded (cv : complex F) (n : nat) : Prop :=
  ∀ j, (j < n)%nat → escaped (orbit cv (S j)) = false.

(** Update number [k] (the first update is number 0) is the first after
    which the magnitude exceeds 2. *)
Definition first_exceeds_at (cv : complex F) (k : nat) : Prop :=
  stays_bounded cv k ∧ escaped (orbit cv (S k)) = true.

(** ** Shapes and reachable states *)

(** [z], [div_time] and [mask] all have the shape of [c]. *)
Definition well_shaped (c : grid (complex F)) (s : state) : Prop :=
  shape (z s) = shape c ∧ shape (div_time s) = shape c ∧
  shape (mask s) = shape c.

(** The states the loop goes through: the initial one, and the one after each
    pass of the body, whatever the index recorded in that pass. *)
Inductive reachable (c : grid (complex F)) : state → Prop :=
  | reachable_init : reachable c (init c)
  | reachable_body i s : reachable c s → reachable c (body c i s).

(** Cell [(r, col)] is inactive in [s'] and holds in [s'] the [z] and the
    [div_time] it holds in [s]. *)
Definition frozen_at (s s' : state) (r col : nat) : Prop :=
  cell (z s') r col = cell (z s) r col ∧
  cell (div_time s') r col = cell (div_time s) r col ∧
  cell (mask s') r col = Some false.

(** The sample of cell [(r, col)] for a region and a resolution. *)
Definition sample_at (xmin xmax ymin ymax : F) (width height : Z)
    (r col : nat) : option (complex F) :=
  match linspace xmin xmax width, linspace ymin ymax height with
  | Ok r1, Ok r2 => cell (sample_grid r1 r2) r col
  | _, _ => None
  end.

End Program.

Arguments state F : clear implicits.
Arguments point F : clear implicits.

(** ** IEEE binary64 *)

Module Binary64.

Definition int_to_float (n : Z) : float :=
  if n <? 0 then PrimFloat.opp (PrimFloat.of_uint63 (Uint63.of_Z (- n)))
  else PrimFloat.of_uint63 (Uint63.of_Z n).

(** [abs] of a [complex128] is [hypot(re, im)]; here it is the correctly
    rounded square root of the rounded sum of squares, which is [hypot]
    wherever the squares and their sum are exact and within a few units in
    the last place of it otherwise (overflow and underflow of the squares
    apart), so the two can disagree for a magnitude at the radius itself.
    The closed runs below use exactly representable values, the run that
    compares two mirror cells apart. *)
Definition abs_gt2 (a b : float) : bool :=
  PrimFloat.ltb 2%float
    (PrimFloat.sqrt (PrimFloat.add (PrimFloat.mul a a) (PrimFloat.mul b b))).

(** Every operation is rounded on its own.  A numpy build that fuses the
    products of the complex square rounds them differently, so a long orbit
    near the boundary of the set can leave the radius at another update
    there than here. *)
#[global] Instance ops : FloatOps float := {|
  f0 := 0%float;
  f1 := 1%float;
  fadd := PrimFloat.add;
  fsub := PrimFloat.sub;
  fmul := PrimFloat.mul;
  fdiv := PrimFloat.div;
  fopp := PrimFloat.opp;
  of_int := int_to_float;
  feqb := PrimFloat.eqb;
  mag_gt2 := abs_gt2
|}.

End Binary64.

(** ** Exact arithmetic *)

(** The laws of the real numbers that the coordinate formula and the
    conjugation symmetry rest on: the operations form a field, the
    conversion of integers is additive and sends no positive integer to 0,
    and the magnitude test does not see the sign of the imaginary part.
    Rounded arithmetic does not satisfy the field laws. *)
Class ExactLaws (F : Type) `{FloatOps F} : Prop := {
  exact_field :
    field_theory f0 f1 fadd fmul fsub fopp fdiv (fun x => fdiv f1 x) (@eq F);
  of_int_add : forall a b : Z, of_int (a + b) = fadd (of_int a) (of_int b);
  of_int_nonzero : forall n : Z, 0 < n -> of_int n <> f0;
  mag_gt2_conj : forall a b : F, mag_gt2 a (fopp b) = mag_gt2 a b
}.

(** The rationals, in canonical form. *)
Module Exact.

Definition int_to_Qc (n : Z) : Qc := Q2Qc (inject_Z n).

(** [|a + b j| > 2], decided without the square root: [a*a + b*b > 4]. *)
Definition abs_gt2 (a b : Qc) : bool :=
  match Qccompare (Q2Qc 4) (Qcplus (Qcmult a a) (Qcmult b b)) with
  | Lt => true
  | _ => false
  end.

#[global] Instance ops : FloatOps Qc := {|
  f0 := Q2Qc 0;
  f1 := Q2Qc 1;
  fadd := Qcplus;
  fsub := Qcminus;
  fmul := Qcmult;
  fdiv := Qcdiv;
  fopp := Qcopp;
  of_int := int_to_Qc;
  feqb := Qc_eq_bool;
  mag_gt2 := abs_gt2
|}.

End Exact.

(** ** The coordinates as the specification writes them *)

Section SpecCoordinate.
Context {F : Type} `{FloatOps F}.

(** Sample [k] of [n] along an axis from [lo] to [hi]:
    [lo + k*(hi-lo)/(n-1)], and [lo] itself when [n] is 1. *)
Definition spec_coordinate (lo hi : F) (n : Z) (k : nat) : F :=
  if n =? 1 then lo
  else fadd lo (fdiv (fmul (of_int (Z.of_nat k)) (fsub hi lo)) (of_int (n - 1))).

(** Sample [k] of [n] as [numpy.linspace] computes it: the stored endpoint
    [hi] for the last of two or more samples; otherwise [k * step + lo] with
    [step = (hi - lo) / (n - 1)], or [(k / (n - 1)) * (hi - lo) + lo] when
    that step compares equal to 0; and [k * (hi - lo) + lo] for a single
    sample. *)
Definition linspace_coordinate (lo hi : F) (n : Z) (k : nat) : F :=
  if (1 <? n) && (Z.of_nat k =? n - 1) then hi
  else if 0 <? n - 1 then
    if feqb (fdiv (fsub hi lo) (of_int (n - 1))) f0
    then fadd (fmul (fdiv (of_int (Z.of_nat k)) (of_int (n - 1))) (fsub hi lo))
              lo
    else fadd (fmul (of_int (Z.of_nat k)) (fdiv (fsub hi lo) (of_int (n - 1))))
              lo
  else fadd (fmul (of_int (Z.of_nat k)) (fsub hi lo)) lo.



End SpecCoordinate.


(** * visual.py: the attractors and their integration *)

(** ** Arrays of shape [(3,)] and [(steps, 3)] *)

(** A point, or a derivative: an array of shape [(3,)]. *)
Record vec3 (F : Type) : Type := Vec3 { vx : F; vy : F; vz : F }.
Arguments Vec3 {F} vx vy vz.
Arguments vx {F} v.
Arguments vy {F} v.
Arguments vz {F} v.

(** What numpy raises in [generate_data]: [ValueError("negative dimensions
    are not allowed")] from [np.zeros], [IndexError("index 0 is out of
    bounds for axis 0 with size 0")] from indexing a row, and
    [ValueError("could not broadcast input array from shape (n,) into shape
    (3,)")] from assigning a row. *)
Inductive np_exn : Type :=
  | NegativeDimensions
  | IndexOutOfBounds (index size : nat)
  | CannotBroadcast (len : nat).

Inductive outcome (A : Type) : Type :=
  | Done (a : A)
  | Fails (e : np_exn).
Arguments Done {A} a.
Arguments Fails {A} e.

#[global] Instance outcome_ret : MRet outcome := fun A a => Done a.
#[global] Instance outcome_bind : MBind outcome := fun A B f m =>
  match m with
  | Done a => f a
  | Fails e => Fails e
  end.

(** [x ** n] for a [float64] scalar [x] and a Python [int] [n]. *)
Class PowOps (F : Type) : Type := {
  fpow : F -> Z -> F
}.

Section Attractors.
Context {F : Type} `{FloatOps F} `{PowOps F}.

(** A decimal literal such as [0.2], written [lit 2 10]: the literal denotes
    the double nearest to 2/10, and so does the correctly rounded quotient of
    the two integers. *)
Definition lit (m p : Z) : F := fdiv (of_int m) (of_int p).

(** *** The four systems *)

(** [lorenz(xyz, sigma=10, rho=28, beta=8/3)]; [sigma] and [rho] are Python
    integers, converted where they meet a float. *)
Definition lorenz (sigma rho : Z) (beta : F) (xyz : vec3 F) : vec3 F :=
  let x := vx xyz in let y := vy xyz in let z := vz xyz in
  let dx := fmul (of_int sigma) (fsub y x) in
  let dy := fsub (fmul x (fsub (of_int rho) z)) y in
  let dz := fsub (fmul x y) (fmul beta z) in
  Vec3 dx dy dz.

(** [rossler(xyz, a=0.2, b=0.2, c=5.7)]. *)
Definition rossler (a b c : F) (xyz : vec3 F) : vec3 F :=
  let x := vx xyz in let y := vy xyz in let z := vz xyz in
  let dx := fsub (fopp y) z in
  let dy := fadd x (fmul a y) in
  let dz := fadd b (fmul z (fsub x c)) in
  Vec3 dx dy dz.

(** [chen(xyz, a=40, b=3, c=28)]; the three are Python integers, and
    [c - a] is an integer subtraction. *)
Definition chen (a b c : Z) (xyz : vec3 F) : vec3 F :=
  let x := vx xyz in let y := vy xyz in let z := vz xyz in
  let dx := fmul (of_int a) (fsub y x) in
  let dy := fadd (fsub (fmul (of_int (c - a)) x) (fmul x z))
                 (fmul (of_int c) y) in
  let dz := fsub (fmul x y) (fmul (of_int b) z) in
  Vec3 dx dy dz.

(** [aizawa(xyz, a=0.95, b=0.7, c=0.6, d=3.5, e=0.25, f=0.1)]. *)
Definition aizawa (a b c d e f : F) (xyz : vec3 F) : vec3 F :=
  let x := vx xyz in let y := vy xyz in let z := vz xyz in
  let dx := fsub (fmul (fsub z b) x) (fmul d y) in
  let dy := fadd (fmul d x) (fmul (fsub z b) y) in
  let dz :=
    fadd
      (fsub
         (fsub (fadd c (fmul a z)) (fdiv (fpow z 3) (of_int 3)))
         (fmul (fadd (fpow x 2) (fpow y 2)) (fadd (of_int 1) (fmul e z))))
      (fmul (fmul f z) (fpow x 3)) in
  Vec3 dx dy dz.

(** The functions as [generate_data] calls them, with their defaults. *)
Definition lorenz_default : vec3 F -> vec3 F :=
  lorenz 10 28 (fdiv (of_int 8) (of_int 3)).
Definition rossler_default : vec3 F -> vec3 F :=
  rossler (lit 2 10) (lit 2 10) (lit 57 10).
Definition chen_default : vec3 F -> vec3 F := chen 40 3 28.
Definition aizawa_default : vec3 F -> vec3 F :=
  aizawa (lit 95 100) (lit 7 10) (lit 6 10) (lit 35 10) (lit 25 100) (lit 1 10).

(** *** Elementwise arithmetic on rows *)

(** [u + v]. *)
Definition vadd (u v : vec3 F) : vec3 F :=
  Vec3 (fadd (vx u) (vx v)) (fadd (vy u) (vy v)) (fadd (vz u) (vz v)).

(** [v * dt], an array times a float. *)
Definition vmul (v : vec3 F) (dt : F) : vec3 F :=
  Vec3 (fmul (vx v) dt) (fmul (vy v) dt) (fmul (vz v) dt).

(** [n * v], a Python integer times an array. *)
Definition vtimes (n : Z) (v : vec3 F) : vec3 F :=
  Vec3 (fmul (of_int n) (vx v)) (fmul (of_int n) (vy v))
       (fmul (of_int n) (vz v)).

(** [v / n], an array over a Python integer. *)
Definition vover (v : vec3 F) (n : Z) : vec3 F :=
  Vec3 (fdiv (vx v) (of_int n)) (fdiv (vy v) (of_int n))
       (fdiv (vz v) (of_int n)).

(** *** generate_data *)

(** The body of the loop: from [current = traj[i]] to the value stored in
    [traj[i + 1]]. *)
Definition rk4_step (func : vec3 F -> vec3 F) (dt : F) (current : vec3 F)
    : vec3 F :=
  let k1 := func current in
  let k2 := func (vadd current (vover (vmul k1 dt) 2)) in
  let k3 := func (vadd current (vover (vmul k2 dt) 2)) in
  let k4 := func (vadd current (vmul k3 dt)) in
  vadd current
    (vover (vmul (vadd (vadd (vadd k1 (vtimes 2 k2)) (vtimes 2 k3)) k4) dt) 6).

(** [np.zeros((steps, 3))]. *)
Definition np_zeros3 (steps : Z) : outcome (list (vec3 F)) :=
  if steps <? 0 then Fails NegativeDimensions
  else Done (replicate (Z.to_nat steps) (Vec3 f0 f0 f0)).

(** A sequence of floats assigned to a row of three: three entries are
    copied, one entry is broadcast, any other length is refused. *)
Definition broadcast3 (l : list F) : outcome (vec3 F) :=
  match l with
  | [a; b; c] => Done (Vec3 a b c)
  | [a] => Done (Vec3 a a a)
  | _ => Fails (CannotBroadcast (length l))
  end.

(** [traj[i]], read. *)
Definition get_row (traj : list (vec3 F)) (i : nat) : outcome (vec3 F) :=
  match traj !! i with
  | Some v => Done v
  | None => Fails (IndexOutOfBounds i (length traj))
  end.

(** [traj[i] = v], for a row [v]. *)
Definition set_row (traj : list (vec3 F)) (i : nat) (v : vec3 F)
    : outcome (list (vec3 F)) :=
  if decide (i < length traj)%nat then Done (<[i := v]> traj)
  else Fails (IndexOutOfBounds i (length traj)).

(** [for i in range(...): traj[i + 1] = ...], started at index [i] with [n]
    indices left. *)
Fixpoint rk4_loop (func : vec3 F -> vec3 F) (dt : F) (n : nat) (i : nat)
    (traj : list (vec3 F)) : outcome (list (vec3 F)) :=
  match n with
  | O => Done traj
  | S n' =>
      current ← get_row traj i;
      traj' ← set_row traj (i + 1) (rk4_step func dt current);
      rk4_loop func dt n' (i + 1) traj'
  end.

(** The row index is looked up before the value is converted, so with no
    row 0 the [IndexError] comes first. *)
Definition generate_data (func : vec3 F -> vec3 F) (initial_state : list F)
    (steps : Z) (dt : F) : outcome (list (vec3 F)) :=
  traj ← np_zeros3 steps;
  _ ← get_row traj 0;
  row ← broadcast3 initial_state;
  traj ← set_row traj 0 row;
  rk4_loop func dt (Z.to_nat (steps - 1)) 0 traj.

(** *** The trajectory, row after row *)

(** [n] rows, each the step of the one before, from [x0]. *)
Fixpoint rk4_rows (func : vec3 F -> vec3 F) (dt : F) (n : nat) (x0 : vec3 F)
    : list (vec3 F) :=
  match n with
  | O => []
  | S n' => x0 :: rk4_rows func dt n' (rk4_step func dt x0)
  end.

(** The mirror image [(x, y, z) -> (-x, -y, z)]. *)
Definition mirror (v : vec3 F) : vec3 F := Vec3 (fopp (vx v)) (fopp (vy v)) (vz v).

(** On the [z] axis. *)
Definition on_z_axis (v : vec3 F) : Prop := vx v = f0 ∧ vy v = f0.

(** *** The frames of the animation *)

(** [data[:k]] for a Python integer [k]: a negative [k] counts from the
    end. *)
Definition py_prefix {A : Type} (data : list A) (k : Z) : list A :=
  if k <? 0 then take (Z.to_nat (Z.of_nat (length data) + k)) data
  else take (Z.to_nat k) data.

(** What [update(frame)] hands to one line: the rows [data[:current_step]]
    when [current_step < len(data)], and nothing (the line is left as it
    was) otherwise. *)
Definition update_rows {A : Type} (loop_speed frame : Z) (data : list A)
    : option (list A) :=
  let current_step := frame * loop_speed in
  if current_step <? Z.of_nat (length data)
  then Some (py_prefix data current_step)
  else None.

End Attractors.

(** Integer powers of a rational. *)
#[global] Instance Exact_pow : PowOps Qc := {|
  fpow := fun x n =>
    if n <? 0 then Qcinv (Qcpower x (Z.to_nat (- n)))
    else Qcpower x (Z.to_nat n)
|}.

(** * Properties *)

(** ** Arrays: cells and shapes *)

Section GridFacts.
Context {A B C : Type}.

Lemma cell_Some {X : Type} (g : grid X) r col x :
  cell g r col = Some x ↔ ∃ row, g !! r = Some row ∧ row !! col = Some x.
Proof.
  unfold cell. destruct (g !! r) as [row|]; simpl.
  - split; [by eauto | by intros (? & [= <-] & ?)].
  - split; [done | by intros (? & ? & ?)].
Qed.

Lemma cell_is_Some_shape {X Y : Type} (g : grid X) (g' : grid Y) r col :
  shape g = shape g' → is_Some (cell g r col) → is_Some (cell g' r col).
Proof.
  intros Hs [x (row & Hr & Hc)%cell_Some].
  assert (shape g !! r = Some (length row)) as Hl
    by (unfold shape; by rewrite list_lookup_fmap, Hr).
  rewrite Hs in Hl. unfold shape in Hl. rewrite list_lookup_fmap in Hl.
  destruct (g' !! r) as [row'|] eqn:Hr'; [|done]. simpl in Hl.
  injection Hl as Hl.
  destruct (lookup_lt_is_Some_2 row' col) as [y Hy].
  { rewrite Hl. by eapply lookup_lt_Some. }
  exists y. apply cell_Some. eauto.
Qed.

Lemma grid_ext (a b : grid A) :
  shape a = shape b → (∀ r col, cell a r col = cell b r col) → a = b.
Proof.
  intros Hs Hc. apply list_eq. intros r.
  assert (shape a !! r = shape b !! r) as Hl by by rewrite Hs.
  unfold shape in Hl. rewrite !list_lookup_fmap in Hl.
  destruct (a !! r) as [ra|] eqn:Ha, (b !! r) as [rb|] eqn:Hb;
    simpl in Hl; try done.
  f_equal. apply list_eq. intros col.
  specialize (Hc r col). unfold cell in Hc. by rewrite Ha, Hb in Hc.
Qed.

Lemma cell_grid_map2 (f : A → B → C) (a : grid A) (b : grid B) r col :
  cell (grid_map2 f a b) r col =
  x ← cell a r col; y ← cell b r col; Some (f x y).
Proof.
  unfold cell, grid_map2. rewrite lookup_zip_with.
  destruct (a !! r) as [ra|]; simpl; [|done].
  destruct (b !! r) as [rb|]; simpl.
  - rewrite lookup_zip_with. by destruct (ra !! col).
  - by destruct (ra !! col).
Qed.

Lemma cell_full_like (c : grid A) (v : B) r col :
  cell (full_like c v) r col = (λ _, v) <$> cell c r col.
Proof.
  unfold cell, full_like. rewrite list_lookup_fmap.
  destruct (c !! r) as [row|]; simpl; [|done].
  by rewrite list_lookup_fmap.
Qed.

Lemma shape_grid_map2 (f : A → B → C) (a : grid A) (b : grid B) :
  shape a = shape b → shape (grid_map2 f a b) = shape b.
Proof.
  unfold shape, grid_map2. revert b.
  induction a as [|ra a IH]; intros [|rb b]; simpl; try done.
  intros [= Hl Hs]. f_equal; [|by apply IH].
  rewrite length_zip_with. lia.
Qed.

Lemma shape_full_like (c : grid A) (v : B) : shape (full_like c v) = shape c.
Proof.
  unfold shape, full_like. rewrite <- list_fmap_compose.
  apply list_fmap_ext. intros _ row _. simpl. by rewrite length_fmap.
Qed.

End GridFacts.

Lemma cell_grid_map3 {A B C D : Type} (f : A → B → C → D) (a : grid A) (b : grid B)
    (c : grid C) r col :
  cell (grid_map3 f a b c) r col =
  x ← cell a r col; y ← cell b r col; w ← cell c r col; Some (f x y w).
Proof.
  unfold grid_map3.
  rewrite (cell_grid_map2 (λ (g : C → D) x, g x)), cell_grid_map2.
  destruct (cell a r col); simpl; [|done].
  destruct (cell b r col); simpl; done.
Qed.

Lemma shape_grid_map3 {A B C D : Type} (f : A → B → C → D)
    (a : grid A) (b : grid B) (c : grid C) :
  shape a = shape b → shape b = shape c → shape (grid_map3 f a b c) = shape c.
Proof.
  intros Hab Hbc. unfold grid_map3. apply shape_grid_map2.
  rewrite shape_grid_map2; congruence.
Qed.

Lemma grid_any_false (m : grid bool) r col b :
  grid_any m = false → cell m r col = Some b → b = false.
Proof.
  intros Hany (row & Hr & Hc)%cell_Some.
  destruct b; [|done].
  assert (grid_any m = true) as Ht; [|congruence].
  unfold grid_any. apply existsb_exists. exists row. split.
  - apply list_elem_of_In. by eapply list_elem_of_lookup_2.
  - apply existsb_exists. exists true. split; [|done].
    apply list_elem_of_In. by eapply list_elem_of_lookup_2.
Qed.

(** ** The body of the loop, cell by cell *)

Section Cells.
Context {F : Type} `{FloatOps F}.
Implicit Types (c : grid (complex F)) (s : state F) (cv zv : complex F).

Lemma point_at_body c i s r col :
  point_at (body c i s) r col =
  cv ← cell c r col; p ← point_at s r col; Some (point_step cv i p).
Proof.
  unfold point_at, body; simpl.
  rewrite !cell_grid_map2, !cell_grid_map3.
  destruct (cell (mask s) r col) as [m|], (cell (z s) r col) as [zv|],
    (cell c r col) as [cv|], (cell (div_time s) r col) as [t|]; simpl; done.
Qed.

Lemma point_at_init c r col :
  point_at (init c) r col = (λ _, point_init) <$> cell c r col.
Proof.
  unfold point_at, init; simpl. rewrite !cell_full_like.
  by destruct (cell c r col).
Qed.

Lemma point_at_full_loop c n i s r col cv :
  cell c r col = Some cv →
  point_at (full_loop c n i s) r col = point_run cv n i <$> point_at s r col.
Proof.
  intros Hc. revert i s. induction n as [|n IH]; intros i s; simpl.
  - by destruct (point_at s r col).
  - rewrite IH, point_at_body, Hc. simpl. by destruct (point_at s r col).
Qed.

(** *** Shapes *)

Lemma well_shaped_init c : well_shaped c (init c).
Proof. unfold well_shaped, init; simpl. by rewrite !shape_full_like. Qed.

Lemma well_shaped_body c i s : well_shaped c s → well_shaped c (body c i s).
Proof.
  intros (Hz & Ht & Hm). unfold well_shaped, body; simpl.
  assert (shape (grid_map3 update_z (mask s) (z s) c) = shape c) as Hz'
    by (apply shape_grid_map3; congruence).
  assert (shape (grid_map2 diverged_at (mask s)
            (grid_map3 update_z (mask s) (z s) c)) = shape c) as Hd
    by (rewrite shape_grid_map2; congruence).
  split; [done|]. split; rewrite shape_grid_map2; congruence.
Qed.

Lemma reachable_well_shaped c s : reachable c s → well_shaped c s.
Proof.
  induction 1; [apply well_shaped_init | by apply well_shaped_body].
Qed.

Lemma well_shaped_full_loop c n i s :
  well_shaped c s → well_shaped c (full_loop c n i s).
Proof.
  revert i s. induction n as [|n IH]; intros i s Hs; simpl; [done|].
  by apply IH, well_shaped_body.
Qed.

Lemma well_shaped_point_at c s r col cv :
  well_shaped c s → cell c r col = Some cv → is_Some (point_at s r col).
Proof.
  intros (Hz & Ht & Hm) Hc. unfold point_at.
  destruct (cell_is_Some_shape c (z s) r col) as [zv ->]; [done|by eauto|].
  destruct (cell_is_Some_shape c (div_time s) r col) as [t ->];
    [done|by eauto|].
  destruct (cell_is_Some_shape c (mask s) r col) as [m ->]; [done|by eauto|].
  simpl. eauto.
Qed.

Lemma state_ext c s s' :
  well_shaped c s → well_shaped c s' →
  (∀ r col, point_at s r col = point_at s' r col) → s = s'.
Proof.
  intros (Hz & Ht & Hm) (Hz' & Ht' & Hm') Hp.
  assert (∀ r col, cell (z s) r col = cell (z s') r col
                   ∧ cell (div_time s) r col = cell (div_time s') r col
                   ∧ cell (mask s) r col = cell (mask s') r col) as Hcells.
  { intros r col. specialize (Hp r col). unfold point_at in Hp.
    destruct (cell (z s) r col) as [zv|] eqn:Ez.
    - destruct (cell_is_Some_shape (z s) (div_time s) r col) as [t Et];
        [congruence|by eauto|].
      destruct (cell_is_Some_shape (z s) (mask s) r col) as [m Em];
        [congruence|by eauto|].
      rewrite Et, Em in Hp |- *. simpl in Hp.
      destruct (cell (z s') r col), (cell (div_time s') r col),
        (cell (mask s') r col); simpl in Hp; try done.
      by injection Hp as -> -> ->.
    - assert (cell (z s') r col = None) as Ez'.
      { destruct (cell (z s') r col) eqn:E; [|done].
        destruct (cell_is_Some_shape (z s') (z s) r col);
          [congruence|by eauto|congruence]. }
      assert (∀ X Y (g : grid X) (g' : grid Y), shape g = shape g' →
                cell g r col = None → cell g' r col = None) as Hnone.
      { intros X Y g g' Hs Hg. destruct (cell g' r col) eqn:E; [|done].
        destruct (cell_is_Some_shape g' g r col);
          [congruence|by eauto|congruence]. }
      rewrite Ez'.
      rewrite (Hnone _ _ (z s) (div_time s)), (Hnone _ _ (z s) (mask s)),
        (Hnone _ _ (z s') (div_time s')), (Hnone _ _ (z s') (mask s'));
        try done; congruence. }
  destruct s as [zs ts ms], s' as [zs' ts' ms']; simpl in *.
  f_equal; apply grid_ext; try congruence; intros r col; apply Hcells.
Qed.

End Cells.

(** ** One cell: frozen once inactive, and its value by the orbit *)

Section Points.
Context {F : Type} `{FloatOps F}.
Implicit Types (c : grid (complex F)) (s : state F) (p : point F)
  (cv zv : complex F).

Lemma point_step_inactive cv i p : pactive p = false → point_step cv i p = p.
Proof. destruct p as [zv t m]; simpl. by intros ->. Qed.

Lemma point_run_inactive cv n i p : pactive p = false → point_run cv n i p = p.
Proof.
  revert i. induction n as [|n IH]; intros i Hp; simpl; [done|].
  rewrite point_step_inactive by done. by apply IH.
Qed.

Lemma point_step_active cv i zv t :
  point_step cv i (Point zv t true) =
  let z' := cadd (csquare zv) cv in
  if escaped z' then Point z' i false else Point z' t true.
Proof. unfold point_step; simpl. by destruct (escaped _). Qed.

(** An active cell that has made [a] updates and makes [n] more without
    exceeding 2 is still active, with its recorded value untouched. *)
Lemma point_run_bounded cv n a t :
  (∀ j, (a ≤ j < a + n)%nat → escaped (orbit cv (S j)) = false) →
  point_run cv n (Z.of_nat a) (Point (orbit cv a) t true) =
  Point (orbit cv (a + n)) t true.
Proof.
  revert a. induction n as [|n IH]; intros a Hb; simpl.
  - by rewrite Nat.add_0_r.
  - rewrite point_step_active. simpl.
    change (cadd (csquare (orbit cv a)) cv) with (orbit cv (S a)).
    rewrite (Hb a) by lia.
    replace (Z.of_nat a + 1) with (Z.of_nat (S a)) by lia.
    rewrite IH; [f_equal; f_equal; lia|].
    intros j Hj. apply Hb. lia.
Qed.

(** An active cell that has made [a] updates and first exceeds 2 after
    update number [k] records [k] and is frozen there. *)
Lemma point_run_escapes cv n a k t :
  (a ≤ k < a + n)%nat →
  (∀ j, (a ≤ j < k)%nat → escaped (orbit cv (S j)) = false) →
  escaped (orbit cv (S k)) = true →
  point_run cv n (Z.of_nat a) (Point (orbit cv a) t true) =
  Point (orbit cv (S k)) (Z.of_nat k) false.
Proof.
  revert a. induction n as [|n IH]; intros a Hk Hb He; simpl; [lia|].
  rewrite point_step_active. simpl.
  change (cadd (csquare (orbit cv a)) cv) with (orbit cv (S a)).
  destruct (decide (a = k)) as [->|Hne].
  - rewrite He. by apply point_run_inactive.
  - rewrite (Hb a) by lia.
    replace (Z.of_nat a + 1) with (Z.of_nat (S a)) by lia.
    apply IH; [lia| |done]. intros j Hj. apply Hb. lia.
Qed.

Lemma escape_value_bounded cv max_iter :
  stays_bounded cv (Z.to_nat max_iter) → escape_value cv max_iter = 0.
Proof.
  intros Hb. unfold escape_value, point_init.
  change 0 with (Z.of_nat 0) at 1. change czero with (orbit cv 0).
  rewrite point_run_bounded; [done|]. intros j Hj. apply Hb. lia.
Qed.

Lemma escape_value_escapes cv max_iter k :
  first_exceeds_at cv k → Z.of_nat k < max_iter →
  escape_value cv max_iter = Z.of_nat k.
Proof.
  intros [Hb He] Hk. unfold escape_value, point_init.
  change 0 with (Z.of_nat 0) at 1. change czero with (orbit cv 0).
  rewrite (point_run_escapes _ _ _ k); [done|lia| |done].
  intros j Hj. apply Hb. lia.
Qed.

(** Every orbit either stays bounded for [n] updates or has a first update,
    among the first [n], after which it exceeds 2. *)
Lemma bounded_or_escapes cv n :
  stays_bounded cv n ∨ ∃ k, (k < n)%nat ∧ first_exceeds_at cv k.
Proof.
  induction n as [|n [Hb|(k & Hk & Hf)]].
  - left. intros j Hj. lia.
  - destruct (escaped (orbit cv (S n))) eqn:He.
    + right. exists n. split; [lia|]. by split.
    + left. intros j Hj. destruct (decide (j = n)) as [->|]; [done|].
      apply Hb. lia.
  - right. exists k. split; [lia|done].
Qed.

Lemma first_exceeds_at_unique cv k k' :
  first_exceeds_at cv k → first_exceeds_at cv k' → k = k'.
Proof.
  intros [Hb He] [Hb' He'].
  destruct (Nat.lt_trichotomy k k') as [Hlt|[->|Hlt]]; [|done|].
  - rewrite (Hb' k) in He; done.
  - rewrite (Hb k') in He'; done.
Qed.

End Points.

(** ** The early exit *)

Section EarlyExit.
Context {F : Type} `{FloatOps F}.
Implicit Types (c : grid (complex F)) (s : state F) (cv zv : complex F).

Lemma point_at_active s r col p :
  point_at s r col = Some p → cell (mask s) r col = Some (pactive p).
Proof.
  unfold point_at.
  destruct (cell (z s) r col), (cell (div_time s) r col),
    (cell (mask s) r col); simpl; try done.
  by intros [= <-].
Qed.

(** With no active cell left, a pass of the body changes nothing. *)
Lemma body_inactive c i s :
  well_shaped c s → grid_any (mask s) = false → body c i s = s.
Proof.
  intros Hs Hany. apply (state_ext c); [by apply well_shaped_body|done|].
  intros r col. rewrite point_at_body.
  destruct (cell c r col) as [cv|] eqn:Hc; simpl.
  - destruct (point_at s r col) as [p|] eqn:Hp; simpl; [|done].
    rewrite point_step_inactive; [done|].
    eapply grid_any_false; [done|]. by apply point_at_active.
  - destruct (point_at s r col) as [p|] eqn:Hp; [|done].
    destruct Hs as (Hz & _). unfold point_at in Hp.
    destruct (cell (z s) r col) as [zv|] eqn:Ez; [|done].
    destruct (cell_is_Some_shape (z s) c r col); [done|by eauto|congruence].
Qed.

Lemma full_loop_inactive c n i s :
  well_shaped c s → grid_any (mask s) = false → full_loop c n i s = s.
Proof.
  intros Hs Hany. revert i. induction n as [|n IH]; intros i; simpl; [done|].
  rewrite body_inactive by done. apply IH.
Qed.

(** The loop with the [break] reaches the state of the loop without it. *)
Lemma for_loop_full_loop c n i s :
  well_shaped c s → for_loop c n i s = full_loop c n i s.
Proof.
  revert i s. induction n as [|n IH]; intros i s Hs; [done|].
  cbn [for_loop full_loop].
  destruct (grid_any (mask (body c i s))) eqn:Hany; cbn [negb].
  - by apply IH, well_shaped_body.
  - symmetry. apply full_loop_inactive; [by apply well_shaped_body|done].
Qed.

(** The entry of the result for a cell whose sample is [cv]. *)
Lemma cell_for_loop c n r col cv :
  cell c r col = Some cv →
  cell (div_time (for_loop c n 0 (init c))) r col =
  Some (ptime (point_run cv n 0 point_init)).
Proof.
  intros Hc.
  rewrite for_loop_full_loop by apply well_shaped_init.
  pose proof (point_at_full_loop c n 0 (init c) r col cv Hc) as Hp.
  rewrite point_at_init, Hc in Hp. simpl in Hp.
  unfold point_at in Hp.
  destruct (cell (z _) r col), (cell (div_time _) r col) as [t|],
    (cell (mask _) r col); simpl in Hp; try done.
  by injection Hp as <-.
Qed.

Lemma shape_for_loop c n :
  shape (div_time (for_loop c n 0 (init c))) = shape c.
Proof.
  rewrite for_loop_full_loop by apply well_shaped_init.
  by apply well_shaped_full_loop, well_shaped_init.
Qed.

End EarlyExit.

(** ** The sample grid and its shape *)

Section Sampling.
Context {F : Type} `{FloatOps F}.

Lemma linspace_Ok (start stop : F) num :
  0 ≤ num → ∃ l, linspace start stop num = Ok l ∧ length l = Z.to_nat num.
Proof.
  intros Hn. unfold linspace.
  destruct (Z.ltb_spec num 0) as [|_]; [lia|].
  eexists. split; [done|].
  assert (∀ (g : F → F), length (g <$> arange num) = Z.to_nat num) as Hl
    by (intros g; unfold arange; by rewrite !length_fmap, length_seqZ).
  destruct (1 <? num); unfold set_last; rewrite ?length_insert, length_fmap;
    destruct (0 <? num - 1); [destruct (feqb _ _)| |destruct (feqb _ _)|];
    apply Hl.
Qed.

Lemma linspace_Raise (start stop : F) num :
  num < 0 → linspace start stop num = Raise (ValueError num).
Proof.
  intros Hn. unfold linspace. by destruct (Z.ltb_spec num 0) as [_|]; [|lia].
Qed.

Lemma cell_sample_grid (r1 r2 : list F) r col :
  cell (sample_grid r1 r2) r col =
  y ← r2 !! r; x ← r1 !! col; Some (sample x y).
Proof.
  unfold cell, sample_grid. rewrite list_lookup_fmap.
  destruct (r2 !! r) as [y|]; simpl; [|done].
  rewrite list_lookup_fmap. by destruct (r1 !! col).
Qed.

Lemma shape_sample_grid (r1 r2 : list F) :
  shape (sample_grid r1 r2) = replicate (length r2) (length r1).
Proof.
  unfold shape, sample_grid. induction r2 as [|y r2 IH]; simpl; [done|].
  rewrite length_fmap. by f_equal.
Qed.

End Sampling.

(** ** The function as a whole *)

Section Whole.
Context {F : Type} `{FloatOps F}.
Implicit Types (xmin xmax ymin ymax : F) (width height max_iter : Z)
  (g : grid Z) (cv : complex F).

Lemma mandelbrot_set_cell xmin xmax ymin ymax width height max_iter g r col cv :
  mandelbrot_set xmin xmax ymin ymax width height max_iter = Ok g →
  sample_at xmin xmax ymin ymax width height r col = Some cv →
  cell g r col = Some (escape_value cv max_iter).
Proof.
  unfold mandelbrot_set, sample_at.
  destruct (linspace xmin xmax width) as [r1|]; simpl; [|done].
  destruct (linspace ymin ymax height) as [r2|]; simpl; [|done].
  intros [= <-] Hc. by apply cell_for_loop.
Qed.

Lemma mandelbrot_set_shape xmin xmax ymin ymax width height max_iter :
  0 ≤ width → 0 ≤ height →
  ∃ g, mandelbrot_set xmin xmax ymin ymax width height max_iter = Ok g
       ∧ shape g = replicate (Z.to_nat height) (Z.to_nat width).
Proof.
  intros Hw Hh. unfold mandelbrot_set.
  destruct (linspace_Ok xmin xmax width Hw) as (r1 & -> & Hl1).
  destruct (linspace_Ok ymin ymax height Hh) as (r2 & -> & Hl2). simpl.
  eexists. split; [done|].
  by rewrite shape_for_loop, shape_sample_grid, Hl1, Hl2.
Qed.

(** The result, cell by cell, from the two lists of samples. *)
Lemma mandelbrot_set_lookup xmin xmax ymin ymax width height max_iter g :
  mandelbrot_set xmin xmax ymin ymax width height max_iter = Ok g →
  ∃ r1 r2,
    linspace xmin xmax width = Ok r1 ∧ linspace ymin ymax height = Ok r2
    ∧ shape g = replicate (length r2) (length r1)
    ∧ ∀ r col,
        cell g r col =
        y ← r2 !! r; x ← r1 !! col; Some (escape_value (sample x y) max_iter).
Proof.
  unfold mandelbrot_set.
  destruct (linspace xmin xmax width) as [r1|]; simpl; [|done].
  destruct (linspace ymin ymax height) as [r2|]; simpl; [|done].
  intros [= <-]. exists r1, r2. split; [done|]. split; [done|].
  split; [by rewrite shape_for_loop, shape_sample_grid|].
  intros r col.
  destruct (cell (sample_grid r1 r2) r col) as [cv|] eqn:Hc.
  - rewrite (cell_for_loop _ _ _ _ cv Hc).
    rewrite cell_sample_grid in Hc.
    destruct (r2 !! r) as [y|]; simpl in *; [|done].
    destruct (r1 !! col) as [x|]; simpl in *; [|done].
    by injection Hc as <-.
  - assert (cell (div_time (for_loop (sample_grid r1 r2)
              (Z.to_nat max_iter) 0 (init (sample_grid r1 r2)))) r col = None)
      as ->.
    { match goal with |- ?o = None => destruct o eqn:E end; [|done].
      destruct (cell_is_Some_shape _ (sample_grid r1 r2) r col
                  (shape_for_loop _ _) (mk_is_Some _ _ E)); congruence. }
    rewrite cell_sample_grid in Hc.
    destruct (r2 !! r) as [y|]; simpl in *; [|done].
    by destruct (r1 !! col).
Qed.

Lemma shape_replicate_rows {X : Type} (a : grid X) (h w : nat) :
  shape a = replicate h w → length a = h ∧ Forall (λ row, length row = w) a.
Proof.
  unfold shape. intros Hs. split.
  - by rewrite <- (length_fmap length a), Hs, length_replicate.
  - apply Forall_forall. intros row Hrow.
    assert (length row ∈ replicate h w) as Hin
      by (rewrite <- Hs; by apply list_elem_of_fmap_2).
    by apply elem_of_replicate in Hin as [? _].
Qed.

End Whole.

(** ** Cells that never exceed the threshold, and cells that do *)

(** C1, as the code has it: [div_time] starts as [np.zeros], and a cell is
    only ever written when it escapes, so a sample whose orbit never exceeds
    magnitude 2 within [max_iter] updates has the final value 0 (and not
    [max_iter]). *)
Theorem C1_bounded_cells_report_zero {F : Type} `{FloatOps F}
    (xmin xmax ymin ymax : F) (width height max_iter : Z)
    (g : grid Z) (r col : nat) (cv : complex F) :
  mandelbrot_set xmin xmax ymin ymax width height max_iter = Ok g →
  sample_at xmin xmax ymin ymax width height r col = Some cv →
  stays_bounded cv (Z.to_nat max_iter) →
  cell g r col = Some 0.
Proof.
  intros Hrun Hcv Hb.
  rewrite (mandelbrot_set_cell _ _ _ _ _ _ _ _ _ _ _ Hrun Hcv).
  by rewrite escape_value_bounded.
Qed.

(** The region [0, 3] x [0, 3] sampled 2 x 2 in binary64: cell (0, 0) samples
    0+0j, and reports 0 with [max_iter = 5]. *)
Lemma C1_bounded_cells_report_zero_witness :
  ∃ g, mandelbrot_set 0%float 3%float 0%float 3%float 2 2 5 = Ok g
       ∧ sample_at 0%float 3%float 0%float 3%float 2 2 0 0 = Some czero
       ∧ cell g 0 0 = Some 0.
Proof.
  exists [[0; 0]; [0; 0]].
  split; [vm_compute; reflexivity|]. split; [vm_compute; reflexivity|].
  apply (C1_bounded_cells_report_zero
           0%float 3%float 0%float 3%float 2 2 5 _ 0 0 czero).
  - vm_compute; reflexivity.
  - vm_compute; reflexivity.
  - intros j Hj.
    do 5 (destruct j as [|j]; [vm_compute; reflexivity|]).
    simpl in Hj. lia.
Defined.

(** C1 as stated fails: in that run the cell sampling 0+0j stays bounded for
    all 5 updates and does not hold 5. *)
Lemma C1_counterexample :
  ¬ (∀ (g : grid Z) (r col : nat) (cv : complex float),
       mandelbrot_set 0%float 3%float 0%float 3%float 2 2 5 = Ok g →
       sample_at 0%float 3%float 0%float 3%float 2 2 r col = Some cv →
       stays_bounded cv (Z.to_nat 5) →
       cell g r col = Some 5).
Proof.
  intros Hclaim.
  specialize (Hclaim [[0; 0]; [0; 0]] 0%nat 0%nat czero).
  assert (cell [[0; 0]; [0; 0]] 0 0 = Some 5) as Hbad; [|done].
  apply Hclaim.
  - vm_compute; reflexivity.
  - vm_compute; reflexivity.
  - intros j Hj.
    do 5 (destruct j as [|j]; [vm_compute; reflexivity|]).
    simpl in Hj. lia.
Qed.

(** C5: a cell whose orbit first exceeds magnitude 2 after update number [k]
    (the first update is number 0), with [k < max_iter], holds [k]. *)
Theorem C5_escape_index_is_first_exceeding_update {F : Type} `{FloatOps F}
    (xmin xmax ymin ymax : F) (width height max_iter : Z)
    (g : grid Z) (r col : nat) (cv : complex F) (k : nat) :
  mandelbrot_set xmin xmax ymin ymax width height max_iter = Ok g →
  sample_at xmin xmax ymin ymax width height r col = Some cv →
  first_exceeds_at cv k →
  Z.of_nat k < max_iter →
  cell g r col = Some (Z.of_nat k).
Proof.
  intros Hrun Hcv Hk Hlt.
  rewrite (mandelbrot_set_cell _ _ _ _ _ _ _ _ _ _ _ Hrun Hcv).
  by rewrite (escape_value_escapes _ _ k).
Qed.

(** The region [1, 2] x [0, 1] sampled 2 x 2 in binary64 with
    [max_iter = 3]: cell (0, 0) samples 1+0j, whose orbit is 1, 2, 5; update
    number 2 is the first to exceed 2, and the cell holds 2. *)
Lemma C5_escape_index_is_first_exceeding_update_witness :
  ∃ g, mandelbrot_set 1%float 2%float 0%float 1%float 2 2 3 = Ok g
       ∧ sample_at 1%float 2%float 0%float 1%float 2 2 0 0
         = Some (Cplx 1%float 0%float)
       ∧ cell g 0 0 = Some 2.
Proof.
  exists [[2; 1]; [1; 0]].
  split; [vm_compute; reflexivity|]. split; [vm_compute; reflexivity|].
  apply (C5_escape_index_is_first_exceeding_update
           1%float 2%float 0%float 1%float 2 2 3 _ 0 0
           (Cplx 1%float 0%float) 2).
  - vm_compute; reflexivity.
  - vm_compute; reflexivity.
  - split; [|vm_compute; reflexivity].
    intros j Hj. do 2 (destruct j as [|j]; [vm_compute; reflexivity|]). lia.
  - lia.
Defined.

(** ** No validation of the inputs *)

Lemma full_like_sample_grid {F : Type} `{FloatOps F} {B : Type}
    (r1 r2 : list F) (v : B) :
  full_like (sample_grid r1 r2) v = replicate (length r2) (replicate (length r1) v).
Proof.
  unfold full_like, sample_grid. induction r2 as [|y r2 IH]; simpl; [done|].
  f_equal; [|done]. clear IH. induction r1 as [|x r1 IH]; simpl; [done|].
  by f_equal.
Qed.

(** C2, as the code has it: the function validates nothing.  Whatever the
    bounds ([x_min >= x_max] and [y_min >= y_max] included), a non-negative
    [width] and [height] give a grid of [height] rows of [width] cells, empty
    when one of them is 0; a negative [width] or [height] is refused by
    [numpy.linspace] with its [ValueError], [width] first. *)
Theorem C2_region_is_not_validated {F : Type} `{FloatOps F}
    (xmin xmax ymin ymax : F) (width height max_iter : Z) :
  match mandelbrot_set xmin xmax ymin ymax width height max_iter with
  | Ok g => 0 ≤ width ∧ 0 ≤ height
            ∧ shape g = replicate (Z.to_nat height) (Z.to_nat width)
  | Raise e => (width < 0 ∧ e = ValueError width)
               ∨ (0 ≤ width ∧ height < 0 ∧ e = ValueError height)
  end.
Proof.
  destruct (Z.lt_ge_cases width 0) as [Hw|Hw].
  { unfold mandelbrot_set. rewrite (linspace_Raise xmin xmax width) by done.
    simpl. by left. }
  destruct (Z.lt_ge_cases height 0) as [Hh|Hh].
  { unfold mandelbrot_set.
    destruct (linspace_Ok xmin xmax width Hw) as (r1 & -> & _). simpl.
    rewrite (linspace_Raise ymin ymax height) by done. simpl. by right. }
  destruct (mandelbrot_set_shape xmin xmax ymin ymax width height max_iter
              Hw Hh) as (g & -> & Hs).
  done.
Qed.

(** C2 as stated fails: in binary64, [width = 0], [height = 0] and
    [x_min = x_max] each return a grid, with no error. *)
Lemma C2_counterexample :
  mandelbrot_set 0%float 1%float 0%float 1%float 0 2 5 = Ok [[]; []]
  ∧ mandelbrot_set 0%float 1%float 0%float 1%float 2 0 5 = Ok []
  ∧ mandelbrot_set 3%float 3%float 0%float 1%float 2 2 5 = Ok [[0; 0]; [0; 0]]
  ∧ mandelbrot_set 0%float 3%float 1%float 0%float 2 2 5 = Ok [[0; 0]; [0; 0]]
  ∧ ¬ rejected (mandelbrot_set 0%float 1%float 0%float 1%float 0 2 5).
Proof.
  repeat split; try (vm_compute; reflexivity).
  intros [e He]. vm_compute in He. discriminate He.
Qed.

(** C3, as the code has it: with [max_iter <= 0] the loop body never runs
    ([range(max_iter)] is empty) and the function returns the grid of
    zeros it started from; there is no error. *)
Theorem C3_nonpositive_max_iter_returns_zeros {F : Type} `{FloatOps F}
    (xmin xmax ymin ymax : F) (width height max_iter : Z) :
  max_iter ≤ 0 → 0 ≤ width → 0 ≤ height →
  mandelbrot_set xmin xmax ymin ymax width height max_iter
  = Ok (replicate (Z.to_nat height) (replicate (Z.to_nat width) 0)).
Proof.
  intros Hm Hw Hh. unfold mandelbrot_set.
  destruct (linspace_Ok xmin xmax width Hw) as (r1 & -> & Hl1).
  destruct (linspace_Ok ymin ymax height Hh) as (r2 & -> & Hl2). simpl.
  replace (Z.to_nat max_iter) with 0%nat by lia. simpl.
  by rewrite full_like_sample_grid, Hl1, Hl2.
Qed.

Lemma C3_nonpositive_max_iter_returns_zeros_witness :
  mandelbrot_set 0%float 3%float 0%float 3%float 2 2 0 = Ok [[0; 0]; [0; 0]].
Proof.
  apply (C3_nonpositive_max_iter_returns_zeros
           0%float 3%float 0%float 3%float 2 2 0); lia.
Defined.

(** C3 as stated fails: in binary64, [max_iter = 0] and [max_iter = -1]
    return a grid, with no error. *)
Lemma C3_counterexample :
  mandelbrot_set 0%float 3%float 0%float 3%float 2 2 0 = Ok [[0; 0]; [0; 0]]
  ∧ mandelbrot_set 0%float 3%float 0%float 3%float 2 2 (-1)
    = Ok [[0; 0]; [0; 0]]
  ∧ ¬ rejected (mandelbrot_set 0%float 3%float 0%float 3%float 2 2 0).
Proof.
  repeat split; try (vm_compute; reflexivity).
  intros [e He]. vm_compute in He. discriminate He.
Qed.

(** ** Inactive cells are frozen *)

Section Frozen.
Context {F : Type} `{FloatOps F}.
Implicit Types (c : grid (complex F)) (s : state F) (p : point F).

Lemma point_at_Some s r col p :
  point_at s r col = Some p ↔
  cell (z s) r col = Some (pz p) ∧ cell (div_time s) r col = Some (ptime p)
  ∧ cell (mask s) r col = Some (pactive p).
Proof.
  unfold point_at. destruct p as [zv t m]; simpl.
  destruct (cell (z s) r col), (cell (div_time s) r col),
    (cell (mask s) r col); simpl; split; try done; try by intros (? & ? & ?).
  - by intros [= -> -> ->].
  - by intros ([= ->] & [= ->] & [= ->]).
Qed.

Lemma full_loop_frozen c s r col n i :
  well_shaped c s → cell (mask s) r col = Some false →
  frozen_at s (full_loop c n i s) r col.
Proof.
  intros Hs Hm.
  destruct (cell_is_Some_shape (mask s) c r col) as [cv Hc];
    [by destruct Hs as (_ & _ & ->)|by eauto|].
  destruct (well_shaped_point_at c s r col cv Hs Hc) as [p Hp].
  assert (pactive p = false) as Hp'.
  { apply point_at_active in Hp. congruence. }
  pose proof (point_at_full_loop c n i s r col cv Hc) as Hrun.
  rewrite Hp in Hrun. simpl in Hrun.
  rewrite point_run_inactive in Hrun by done.
  apply point_at_Some in Hp as (Hz & Ht & _).
  apply point_at_Some in Hrun as (Hz' & Ht' & Hm').
  unfold frozen_at. rewrite Hz, Ht, Hz', Ht', Hm'. by rewrite Hp'.
Qed.

End Frozen.

(** C4: in every state the loop can reach, a cell whose [mask] entry is
    false keeps its [z], its [div_time] and its false [mask] entry through
    one more pass of the body, and through any number of further passes of
    the loop, whatever the indices of those passes. *)
Theorem C4_inactive_cells_are_frozen {F : Type} `{FloatOps F}
    (c : grid (complex F)) (s : state F) (r col : nat) (n : nat) (i : Z) :
  reachable c s →
  cell (mask s) r col = Some false →
  frozen_at s (body c i s) r col ∧ frozen_at s (for_loop c n i s) r col.
Proof.
  intros Hs%reachable_well_shaped Hm. split.
  - apply (full_loop_frozen c s r col 1 i Hs Hm).
  - rewrite for_loop_full_loop by done. by apply full_loop_frozen.
Qed.

(** In the binary64 run on [1, 2] x [0, 1], 2 x 2: after the first pass cell
    (1, 1), which samples 2+1j, is inactive; it is frozen from there on. *)
Lemma C4_inactive_cells_are_frozen_witness :
  let c := sample_grid [1%float; 2%float] [0%float; 1%float] in
  let s := body c 0 (init c) in
  cell (mask s) 1 1 = Some false
  ∧ frozen_at s (body c 1 s) 1 1 ∧ frozen_at s (for_loop c 4 1 s) 1 1.
Proof.
  intros c s. split; [vm_compute; reflexivity|].
  apply (C4_inactive_cells_are_frozen c s 1 1 4 1).
  - apply reachable_body, reachable_init.
  - vm_compute; reflexivity.
Defined.

(** ** The early exit does not change the output *)

(** C6: the function with the [break] and the function that always makes all
    [max_iter] passes return the same result, on every input. *)
Theorem C6_early_exit_preserves_output {F : Type} `{FloatOps F}
    (xmin xmax ymin ymax : F) (width height max_iter : Z) :
  mandelbrot_set xmin xmax ymin ymax width height max_iter
  = mandelbrot_set_full xmin xmax ymin ymax width height max_iter.
Proof.
  unfold mandelbrot_set, mandelbrot_set_full.
  destruct (linspace xmin xmax width) as [r1|]; simpl; [|done].
  destruct (linspace ymin ymax height) as [r2|]; simpl; [|done].
  by rewrite for_loop_full_loop by apply well_shaped_init.
Qed.

(** ** Rows, columns and samples *)

(** C10: for [width >= 1] and [height >= 1] the result has [height] rows of
    [width] cells, and cell [(r, col)] holds the escape value of
    [r1[col] + r2[r] * 1j], where [r1] is the list of real samples and [r2]
    the list of imaginary samples.  The point is written out, [x + y * 1j]
    in numpy's complex arithmetic being
    [(x + (y*0 - 0*1)) + (0 + (y*1 + 0*0)) j], and so is its escape value:
    0 when the orbit of that point stays within the radius for [max_iter]
    updates, and [k] when update number [k < max_iter] is the first to take
    it beyond. *)
Theorem C10_rows_are_imaginary_columns_are_real {F : Type} `{FloatOps F}
    (xmin xmax ymin ymax : F) (width height max_iter : Z) :
  1 ≤ width → 1 ≤ height →
  ∃ (g : grid Z) (r1 r2 : list F),
    mandelbrot_set xmin xmax ymin ymax width height max_iter = Ok g
    ∧ linspace xmin xmax width = Ok r1 ∧ length r1 = Z.to_nat width
    ∧ linspace ymin ymax height = Ok r2 ∧ length r2 = Z.to_nat height
    ∧ length g = Z.to_nat height
    ∧ Forall (λ row, length row = Z.to_nat width) g
    ∧ (∀ r col,
         cell g r col =
         y ← r2 !! r; x ← r1 !! col; Some (escape_value (sample x y) max_iter))
    ∧ ∀ r col x y,
        r2 !! r = Some y → r1 !! col = Some x →
        ∃ v, cell g r col = Some v
             ∧ let p := Cplx (fadd x (fsub (fmul y f0) (fmul f0 f1)))
                             (fadd f0 (fadd (fmul y f1) (fmul f0 f0))) in
               (stays_bounded p (Z.to_nat max_iter) → v = 0)
               ∧ (∀ k, first_exceeds_at p k → Z.of_nat k < max_iter →
                       v = Z.of_nat k).
Proof.
  intros Hw Hh.
  destruct (mandelbrot_set_shape xmin xmax ymin ymax width height max_iter)
    as (g & Hrun & Hs); [lia|lia|].
  destruct (mandelbrot_set_lookup _ _ _ _ _ _ _ _ Hrun)
    as (r1 & r2 & Hr1 & Hr2 & _ & Hcells).
  destruct (linspace_Ok xmin xmax width) as (r1' & Hr1' & Hl1); [lia|].
  destruct (linspace_Ok ymin ymax height) as (r2' & Hr2' & Hl2); [lia|].
  assert (r1' = r1) as -> by congruence.
  assert (r2' = r2) as -> by congruence.
  destruct (shape_replicate_rows g _ _ Hs) as [Hlen Hrows].
  exists g, r1, r2. repeat split; try done.
  intros r col x y Hy Hx.
  exists (escape_value (sample x y) max_iter). split.
  - by rewrite Hcells, Hy, Hx.
  - change (Cplx (fadd x (fsub (fmul y f0) (fmul f0 f1)))
                 (fadd f0 (fadd (fmul y f1) (fmul f0 f0))))
      with (sample x y).
    split.
    + apply escape_value_bounded.
    + intros k Hk Hlt. by apply escape_value_escapes.
Qed.

(** The region [1, 3] x [0, 1] sampled with 3 columns and 2 rows in
    binary64, [max_iter = 3]: the real samples are 1, 2, 3, the imaginary
    samples 0, 1, and the grid is [[2, 1, 0], [1, 0, 0]]: 1+0j, 2+0j and
    3+0j first exceed the radius after updates 2, 1 and 0, and 1+1j after
    update 1. *)
Lemma C10_rows_are_imaginary_columns_are_real_witness :
  mandelbrot_set 1%float 3%float 0%float 1%float 3 2 3
  = Ok [[2; 1; 0]; [1; 0; 0]]
  ∧ linspace 1%float 3%float 3 = Ok [1%float; 2%float; 3%float]
  ∧ linspace 0%float 1%float 2 = Ok [0%float; 1%float]
  ∧ first_exceeds_at (Cplx 1%float 0%float) 2
  ∧ first_exceeds_at (Cplx 1%float 1%float) 1
  ∧ ∃ (g : grid Z) (r1 r2 : list float),
      mandelbrot_set 1%float 3%float 0%float 1%float 3 2 3 = Ok g
      ∧ linspace 1%float 3%float 3 = Ok r1 ∧ length r1 = Z.to_nat 3
      ∧ linspace 0%float 1%float 2 = Ok r2 ∧ length r2 = Z.to_nat 2
      ∧ length g = Z.to_nat 2
      ∧ Forall (λ row, length row = Z.to_nat 3) g
      ∧ (∀ r col,
           cell g r col =
           y ← r2 !! r; x ← r1 !! col; Some (escape_value (sample x y) 3))
      ∧ ∀ r col x y,
          r2 !! r = Some y → r1 !! col = Some x →
          ∃ v, cell g r col = Some v
               ∧ let p := Cplx (fadd x (fsub (fmul y f0) (fmul f0 f1)))
                               (fadd f0 (fadd (fmul y f1) (fmul f0 f0))) in
                 (stays_bounded p (Z.to_nat 3) → v = 0)
                 ∧ (∀ k, first_exceeds_at p k → Z.of_nat k < 3 →
                         v = Z.of_nat k).
Proof.
  split; [vm_compute; reflexivity|].
  split; [vm_compute; reflexivity|].
  split; [vm_compute; reflexivity|].
  split.
  { split; [|vm_compute; reflexivity].
    intros j Hj. do 2 (destruct j as [|j]; [vm_compute; reflexivity|]). lia. }
  split.
  { split; [|vm_compute; reflexivity].
    intros j Hj. destruct j as [|j]; [vm_compute; reflexivity|]. lia. }
  apply (C10_rows_are_imaginary_columns_are_real
           1%float 3%float 0%float 1%float 3 2 3); lia.
Defined.

(** ** Raising the iteration cap *)

Section Refinement.
Context {F : Type} `{FloatOps F}.
Implicit Types (cv : complex F).

Lemma stays_bounded_first_exceeds cv n k :
  stays_bounded cv n → first_exceeds_at cv k → (n ≤ k)%nat.
Proof.
  intros Hb [_ He]. destruct (decide (n ≤ k)%nat) as [|Hlt]; [done|].
  rewrite (Hb k) in He; [done|lia].
Qed.

(** A cell that escaped under the old cap keeps its value under the new. *)
Lemma escape_value_escaped_stable cv (old new : Z) k :
  old ≤ new → first_exceeds_at cv k → Z.of_nat k < old →
  escape_value cv new = escape_value cv old.
Proof.
  intros Hle Hk Hlt.
  rewrite (escape_value_escapes cv old k), (escape_value_escapes cv new k);
    [done|done|lia|done|done].
Qed.

(** A cell still active under the old cap holds 0 under the old cap, and 0
    or an index from the old cap on under the new. *)
Lemma escape_value_bounded_later cv (old new : Z) :
  stays_bounded cv (Z.to_nat old) →
  escape_value cv old = 0
  ∧ (escape_value cv new = 0 ∨ old ≤ escape_value cv new).
Proof.
  intros Hb. split; [by apply escape_value_bounded|].
  destruct (bounded_or_escapes cv (Z.to_nat new)) as [Hb'|(k & Hk & Hf)].
  - left. by apply escape_value_bounded.
  - right. rewrite (escape_value_escapes cv new k); [|done|lia].
    pose proof (stays_bounded_first_exceeds _ _ _ Hb Hf). lia.
Qed.

End Refinement.

(** C8, as the code has it: every value of the old output is below
    [max_iter_old] (a cell that never escaped holds 0, not [max_iter_old]),
    so the old value alone does not tell an escaped cell from a saturated
    one.  What holds: a cell whose orbit exceeded 2 within [max_iter_old]
    updates has the same value in the new output; a cell whose orbit did not
    holds 0 in the old output and, in the new one, 0 or a value that is not
    below [max_iter_old].  In terms of the values alone: a non-zero old value
    is unchanged, and an old 0 becomes 0 or a value not below
    [max_iter_old]. *)
Theorem C8_raising_max_iter {F : Type} `{FloatOps F}
    (xmin xmax ymin ymax : F) (width height old new : Z)
    (g_old g_new : grid Z) (r col : nat) (cv : complex F) :
  1 ≤ old → old < new →
  mandelbrot_set xmin xmax ymin ymax width height old = Ok g_old →
  mandelbrot_set xmin xmax ymin ymax width height new = Ok g_new →
  sample_at xmin xmax ymin ymax width height r col = Some cv →
  ∃ v_old v_new,
    cell g_old r col = Some v_old ∧ cell g_new r col = Some v_new
    ∧ ((∃ k, Z.of_nat k < old ∧ first_exceeds_at cv k) → v_new = v_old)
    ∧ (stays_bounded cv (Z.to_nat old) →
       v_old = 0 ∧ (v_new = 0 ∨ old ≤ v_new))
    ∧ (v_old ≠ 0 → v_new = v_old)
    ∧ (v_old = 0 → v_new = 0 ∨ old ≤ v_new).
Proof.
  intros Hold Hnew Hrun_old Hrun_new Hcv.
  exists (escape_value cv old), (escape_value cv new).
  split; [by eapply mandelbrot_set_cell|].
  split; [by eapply mandelbrot_set_cell|].
  assert ((∃ k, Z.of_nat k < old ∧ first_exceeds_at cv k) →
          escape_value cv new = escape_value cv old) as Hesc.
  { intros (k & Hk & Hf). apply (escape_value_escaped_stable cv old new k);
      [lia|done|done]. }
  split; [done|]. split; [by apply escape_value_bounded_later|].
  destruct (bounded_or_escapes cv (Z.to_nat old)) as [Hb|(k & Hk & Hf)].
  - destruct (escape_value_bounded_later cv old new Hb) as [Hz Hn].
    split; [by rewrite Hz|done].
  - assert (escape_value cv new = escape_value cv old) as ->
      by (apply Hesc; exists k; split; [lia|done]).
    split; [done|]. intros ->. by left.
Qed.

(** The binary64 run on [1, 2] x [0, 1], 2 x 2, with the cap raised from 1 to
    3, at cell (0, 0), which samples 1+0j: the old value is 0 and the new
    value is 2. *)
Lemma C8_raising_max_iter_witness :
  ∃ v_old v_new,
    cell [[0; 0]; [0; 0]] 0 0 = Some v_old
    ∧ cell [[2; 1]; [1; 0]] 0 0 = Some v_new
    ∧ ((∃ k, Z.of_nat k < 1 ∧ first_exceeds_at (Cplx 1%float 0%float) k) →
       v_new = v_old)
    ∧ (stays_bounded (Cplx 1%float 0%float) (Z.to_nat 1) →
       v_old = 0 ∧ (v_new = 0 ∨ 1 ≤ v_new))
    ∧ (v_old ≠ 0 → v_new = v_old)
    ∧ (v_old = 0 → v_new = 0 ∨ 1 ≤ v_new).
Proof.
  apply (C8_raising_max_iter 1%float 2%float 0%float 1%float 2 2 1 3
           [[0; 0]; [0; 0]] [[2; 1]; [1; 0]] 0 0 (Cplx 1%float 0%float)).
  - lia.
  - lia.
  - vm_compute; reflexivity.
  - vm_compute; reflexivity.
  - vm_compute; reflexivity.
Defined.

(** C8 as stated fails: in that pair of runs the old value of cell (0, 0) is
    0, which is below [max_iter_old = 1], and the new value is 2. *)
Lemma C8_counterexample :
  ¬ (∀ (g_old g_new : grid Z) (r col : nat) (v_old v_new : Z),
       mandelbrot_set 1%float 2%float 0%float 1%float 2 2 1 = Ok g_old →
       mandelbrot_set 1%float 2%float 0%float 1%float 2 2 3 = Ok g_new →
       cell g_old r col = Some v_old →
       cell g_new r col = Some v_new →
       (v_old < 1 → v_new = v_old) ∧ (v_old = 1 → 1 ≤ v_new)).
Proof.
  intros Hclaim.
  destruct (Hclaim [[0; 0]; [0; 0]] [[2; 1]; [1; 0]] 0%nat 0%nat 0 2)
    as [Hsame _]; try (vm_compute; reflexivity).
  specialize (Hsame ltac:(lia)). lia.
Qed.

(** ** Exact arithmetic: coordinates and conjugation *)

Section ExactFacts.
Context {F : Type} `{FloatOps F} `{!ExactLaws F}.

Add Field exact_field_tactics : exact_field.

Lemma of_int_0 : of_int 0 = f0.
Proof.
  assert (of_int 0 = fsub (fadd (of_int 0) (of_int 0)) (of_int 0)) as ->
    by ring.
  rewrite <- (of_int_add 0 0), Z.add_0_r. ring.
Qed.

(** In exact arithmetic [x + y * 1j] has real part [x] and imaginary part
    [y]. *)
Lemma sample_exact (x y : F) : sample x y = Cplx x y.
Proof.
  unfold sample, cadd, cmul, of_real, cj; simpl. f_equal; ring.
Qed.

Lemma arange_lookup (num : Z) (k : nat) :
  Z.of_nat k < num → arange num !! k = Some (of_int (Z.of_nat k)).
Proof.
  intros Hk. unfold arange. rewrite list_lookup_fmap.
  assert (seqZ 0 num !! k = Some (Z.of_nat k)) as ->; [|done].
  apply lookup_seqZ. split; lia.
Qed.

Lemma length_arange (num : Z) : length (arange num) = Z.to_nat num.
Proof. unfold arange. by rewrite length_fmap, length_seqZ. Qed.

(** [numpy.linspace] computes the coordinates of the specification. *)
Lemma linspace_exact (lo hi : F) (num : Z) :
  0 ≤ num →
  ∃ l, linspace lo hi num = Ok l ∧ length l = Z.to_nat num
       ∧ ∀ k, Z.of_nat k < num → l !! k = Some (spec_coordinate lo hi num k).
Proof.
  intros Hn. destruct (linspace_Ok lo hi num Hn) as (l & Hl & Hlen).
  exists l. split; [done|]. split; [done|]. clear Hlen.
  intros k Hk. unfold linspace in Hl.
  destruct (Z.ltb_spec num 0) as [|_]; [lia|].
  injection Hl as <-. unfold spec_coordinate.
  destruct (Z.ltb_spec 1 num) as [Hbig|Hsmall].
  - (* at least two samples *)
    destruct (Z.eqb_spec num 1) as [|_]; [lia|].
    destruct (Z.ltb_spec 0 (num - 1)) as [_|]; [|lia].
    pose proof (of_int_nonzero (num - 1) ltac:(lia)) as Hd.
    unfold set_last. rewrite list_lookup_insert.
    match goal with |- context [length ?y] =>
      assert (length y = Z.to_nat num) as Hy
    end.
    { destruct (feqb _ _); by rewrite !length_fmap, length_arange. }
    rewrite Hy. case_decide as Hlast.
    + destruct Hlast as [Hlast _].
      replace (Z.of_nat k) with (num - 1) by lia.
      f_equal. by field.
    + destruct (feqb _ _); rewrite !list_lookup_fmap, arange_lookup by done;
        simpl; f_equal; by field.
  - (* a single sample *)
    assert (num = 1) as -> by lia. assert (k = 0%nat) as -> by lia.
    destruct (Z.ltb_spec 0 (1 - 1)) as [|_]; [lia|].
    rewrite !list_lookup_fmap, arange_lookup by done.
    change (Z.of_nat 0) with 0. rewrite of_int_0. simpl. f_equal. ring.
Qed.

(** *** Conjugation *)








End ExactFacts.

(** *** The rationals satisfy the laws *)

#[global] Instance Exact_laws : ExactLaws Qc.
Proof.
  split.
  - constructor.
    + apply Qcrt.
    + simpl. discriminate.
    + intros p q. simpl. unfold Qcdiv. by rewrite Qcmult_1_l.
    + intros p Hp. simpl. unfold Qcdiv. rewrite Qcmult_1_l.
      by apply Qcmult_inv_l.
  - intros a b. simpl. unfold Exact.int_to_Qc. apply Qc_is_canon. simpl.
    rewrite !Qred_correct, inject_Z_plus. reflexivity.
  - intros n Hn. simpl. unfold Exact.int_to_Qc. intros Heq.
    apply (f_equal this) in Heq. simpl in Heq.
    assert (inject_Z n == 0)%Q as Hz
      by (rewrite <- (Qred_correct (inject_Z n)), Heq; reflexivity).
    unfold Qeq, inject_Z in Hz. simpl in Hz. lia.
  - intros a b. simpl. unfold Exact.abs_gt2.
    by replace (- b * - b)%Qc with (b * b)%Qc by ring.
Qed.

(** ** The coordinates of the samples *)

(** In exact arithmetic the sample of row [r] and column [col] is [x + i·y]
    with [x = x_min + col*(x_max-x_min)/(width-1)] and
    [y = y_min + r*(y_max-y_min)/(height-1)], and with a single column (row)
    the sample of that axis is [x_min] ([y_min]). *)
Lemma sample_coordinates_exact {F : Type} `{FloatOps F} `{!ExactLaws F}
    (xmin xmax ymin ymax : F) (width height : Z) (r col : nat) :
  Z.of_nat col < width → Z.of_nat r < height →
  sample_at xmin xmax ymin ymax width height r col
  = Some (Cplx (spec_coordinate xmin xmax width col)
               (spec_coordinate ymin ymax height r)).
Proof.
  intros Hc Hr. unfold sample_at.
  destruct (linspace_exact xmin xmax width) as (r1 & -> & _ & Hx); [lia|].
  destruct (linspace_exact ymin ymax height) as (r2 & -> & _ & Hy); [lia|].
  rewrite cell_sample_grid, (Hy r Hr). simpl. rewrite (Hx col Hc). simpl.
  by rewrite sample_exact.
Qed.

(** What [numpy.linspace] stores at index [k], for every implementation of
    the float operations. *)
Lemma linspace_lookup {F : Type} `{FloatOps F} (lo hi : F) (num : Z)
    (l : list F) (k : nat) :
  linspace lo hi num = Ok l → Z.of_nat k < num →
  l !! k = Some (linspace_coordinate lo hi num k).
Proof.
  intros Hl Hk. unfold linspace in Hl.
  destruct (Z.ltb_spec num 0) as [|_]; [lia|].
  injection Hl as <-. unfold linspace_coordinate.
  destruct (Z.ltb_spec 1 num) as [Hbig|Hsmall]; simpl.
  - destruct (Z.ltb_spec 0 (num - 1)) as [_|]; [|lia].
    unfold set_last. rewrite list_lookup_insert.
    match goal with |- context [length ?y] =>
      assert (length y = Z.to_nat num) as Hy
    end.
    { destruct (feqb _ _); by rewrite !length_fmap, length_arange. }
    rewrite Hy.
    destruct (Z.eqb_spec (Z.of_nat k) (num - 1)) as [Hlast|Hmid].
    + rewrite decide_True by lia. done.
    + rewrite decide_False by lia.
      destruct (feqb _ _); by rewrite !list_lookup_fmap, arange_lookup.
  - assert (num = 1) as -> by lia. assert (k = 0%nat) as -> by lia.
    destruct (Z.ltb_spec 0 (1 - 1)) as [|_]; [lia|].
    by rewrite !list_lookup_fmap, arange_lookup.
Qed.

(** C7, as the code has it.  For every implementation of the float
    operations the sample of row [r] and column [col] is [x + y * 1j], in
    numpy's complex arithmetic [(x + (y*0 - 0*1)) + (0 + (y*1 + 0*0)) j],
    where [x] and [y] are the values [numpy.linspace] stores: [k * step + lo]
    with [step = (hi - lo) / (n - 1)], the endpoint [hi] itself for the last
    of two or more samples, and [0 * (hi - lo) + lo] for a single sample.  In
    exact arithmetic these are the coordinates of the claim,
    [lo + k*(hi-lo)/(n-1)], and [lo] for a single sample. *)
Theorem C7_samples_are_the_linspace_values {F : Type} `{FloatOps F}
    (xmin xmax ymin ymax : F) (width height : Z) (r col : nat) :
  Z.of_nat col < width → Z.of_nat r < height →
  (let x := linspace_coordinate xmin xmax width col in
   let y := linspace_coordinate ymin ymax height r in
   sample_at xmin xmax ymin ymax width height r col
   = Some (Cplx (fadd x (fsub (fmul y f0) (fmul f0 f1)))
                (fadd f0 (fadd (fmul y f1) (fmul f0 f0)))))
  ∧ (ExactLaws F →
     sample_at xmin xmax ymin ymax width height r col
     = Some (Cplx
         (if width =? 1 then xmin
          else fadd xmin (fdiv (fmul (of_int (Z.of_nat col)) (fsub xmax xmin))
                               (of_int (width - 1))))
         (if height =? 1 then ymin
          else fadd ymin (fdiv (fmul (of_int (Z.of_nat r)) (fsub ymax ymin))
                               (of_int (height - 1)))))).
Proof.
  intros Hc Hr. split.
  - unfold sample_at.
    destruct (linspace_Ok xmin xmax width) as (r1 & Hr1 & _); [lia|].
    destruct (linspace_Ok ymin ymax height) as (r2 & Hr2 & _); [lia|].
    rewrite Hr1, Hr2, cell_sample_grid.
    rewrite (linspace_lookup ymin ymax height r2 r Hr2 Hr). simpl.
    by rewrite (linspace_lookup xmin xmax width r1 col Hr1 Hc).
  - intros Hexact.
    by rewrite (sample_coordinates_exact xmin xmax ymin ymax width height r col).
Qed.

(** In binary64: the region [0, 1] x [0, 1] sampled 11 x 2, at row 0 and
    column 3; the real sample is [3 * (1/10) + 0]. *)
Lemma C7_samples_are_the_linspace_values_witness :
  linspace_coordinate 0%float 1%float 11 3 = 0x1.3333333333334p-2%float
  ∧ linspace_coordinate 0%float 1%float 2 0 = 0%float
  ∧ (let x := linspace_coordinate 0%float 1%float 11 3 in
     let y := linspace_coordinate 0%float 1%float 2 0 in
     sample_at 0%float 1%float 0%float 1%float 11 2 0 3
     = Some (Cplx (fadd x (fsub (fmul y f0) (fmul f0 f1)))
                  (fadd f0 (fadd (fmul y f1) (fmul f0 f0)))))
  ∧ (ExactLaws float →
     sample_at 0%float 1%float 0%float 1%float 11 2 0 3
     = Some (Cplx
         (if 11 =? 1 then 0%float
          else fadd 0%float
                 (fdiv (fmul (of_int (Z.of_nat 3)) (fsub 1%float 0%float))
                       (of_int (11 - 1))))
         (if 2 =? 1 then 0%float
          else fadd 0%float
                 (fdiv (fmul (of_int (Z.of_nat 0)) (fsub 1%float 0%float))
                       (of_int (2 - 1)))))).
Proof.
  split; [vm_compute; reflexivity|]. split; [vm_compute; reflexivity|].
  apply (C7_samples_are_the_linspace_values
           0%float 1%float 0%float 1%float 11 2 0 3); lia.
Defined.

(** C7 as stated fails in binary64.  In the region [0, 1] x [0, 1] sampled
    11 x 2, the sample of row 0 and column 3 has the real part
    0.30000000000000004 where the formula gives 0.29999999999999999; and in
    the region [-2^1023, 2^1023] x [0, 1] with a single column, whose width
    [x_max - x_min] overflows, the one real sample is not [x_min] but NaN. *)
Lemma C7_counterexample :
  sample_at 0%float 1%float 0%float 1%float 11 2 0 3
  ≠ Some (Cplx (spec_coordinate 0%float 1%float 11 3)
               (spec_coordinate 0%float 1%float 2 0))
  ∧ sample_at (-0x1p1023)%float 0x1p1023%float 0%float 1%float 1 2 0 0
    ≠ Some (Cplx (spec_coordinate (-0x1p1023)%float 0x1p1023%float 1 0)
                 (spec_coordinate 0%float 1%float 2 0))
  ∧ spec_coordinate (-0x1p1023)%float 0x1p1023%float 1 0 = (-0x1p1023)%float
  ∧ linspace (-0x1p1023)%float 0x1p1023%float 1 = Ok [nan].
Proof.
  split.
  { intros Heq.
    apply (f_equal (λ o : option (complex float),
             match o with
             | Some u => PrimFloat.Leibniz.eqb (re u) 0x1.3333333333333p-2%float
             | None => false
             end)) in Heq.
    vm_compute in Heq. discriminate Heq. }
  split.
  { intros Heq.
    apply (f_equal (λ o : option (complex float),
             match o with
             | Some u => PrimFloat.Leibniz.eqb (re u) (-0x1p1023)%float
             | None => false
             end)) in Heq.
    vm_compute in Heq. discriminate Heq. }
  split; vm_compute; reflexivity.
Qed.

(** ** Symmetry about the real axis *)




(** ** The range of the values *)

Lemma escape_value_range {F : Type} `{FloatOps F} (cv : complex F)
    (max_iter : Z) :
  0 ≤ escape_value cv max_iter
  ∧ (escape_value cv max_iter = 0 ∨ escape_value cv max_iter < max_iter).
Proof.
  destruct (bounded_or_escapes cv (Z.to_nat max_iter)) as [Hb|(k & Hk & Hf)].
  - rewrite escape_value_bounded by done. split; [lia|by left].
  - rewrite (escape_value_escapes cv max_iter k) by (done || lia).
    split; [lia|right; lia].
Qed.

(** Every cell of the result holds a value from 0 up to, and not
    including, [max_iter] (0 when [max_iter <= 0]). *)
Lemma values_in_range {F : Type} `{FloatOps F}
    (xmin xmax ymin ymax : F) (width height max_iter : Z)
    (g : grid Z) (r col : nat) (v : Z) :
  mandelbrot_set xmin xmax ymin ymax width height max_iter = Ok g →
  cell g r col = Some v →
  0 ≤ v ∧ (v = 0 ∨ v < max_iter).
Proof.
  intros Hrun Hv.
  destruct (mandelbrot_set_lookup _ _ _ _ _ _ _ _ Hrun)
    as (r1 & r2 & _ & _ & _ & Hcells).
  rewrite Hcells in Hv.
  destruct (r2 !! r) as [y|]; simpl in Hv; [|done].
  destruct (r1 !! col) as [x|]; simpl in Hv; [|done].
  injection Hv as <-. apply escape_value_range.
Qed.

Lemma values_in_range_witness :
  0 ≤ 2 ∧ (2 = 0 ∨ 2 < 3).
Proof.
  apply (values_in_range 1%float 2%float 0%float 1%float 2 2 3
           [[2; 1]; [1; 0]] 0 0 2); vm_compute; reflexivity.
Defined.

(** ** Rounding *)

(** Why the coordinate formula and the mirror symmetry are stated for exact
    arithmetic: in binary64 [linspace] yields [k * step + lo], which can
    differ in the last bit from [lo + k*(hi-lo)/(n-1)], and the samples of
    [-5/4 .. 5/4] are not exact mirrors of each other.  The three facts:
    [linspace(0, 1, 11)[3]] is 0.30000000000000004, the formula gives
    0.29999999999999999, and in [linspace(-1.25, 1.25, 10)] sample 1 is
    -0.97222222222222221 while the opposite of sample 8 is
    -0.97222222222222232. *)
Lemma binary64_linspace_rounding :
  (linspace 0%float 1%float 11 ≫= λ l, mret (l !! 3%nat))
  = Ok (Some 0x1.3333333333334p-2%float)
  ∧ spec_coordinate 0%float 1%float 11 3 = 0x1.3333333333333p-2%float
  ∧ (linspace (-1.25)%float 1.25%float 10
       ≫= λ l, mret (l !! 1%nat, fopp <$> l !! 8%nat))
    = Ok (Some (-0x1.f1c71c71c71c7p-1)%float,
          Some (-0x1.f1c71c71c71c8p-1)%float).
Proof. repeat split; vm_compute; reflexivity. Qed.

(** ** The two known points, in binary64 *)

Lemma orbit_origin_binary64 (k : nat) : orbit (F:=float) czero k = czero.
Proof.
  induction k as [|k IH]; [done|]. cbn [orbit]. rewrite IH.
  vm_compute; reflexivity.
Qed.

(** The cell sampling 0+0j holds 0, whatever [max_iter]. *)
Lemma origin_holds_zero (max_iter : Z) :
  ∃ g, mandelbrot_set 0%float 3%float 0%float 3%float 2 2 max_iter = Ok g
       ∧ sample_at 0%float 3%float 0%float 3%float 2 2 0 0 = Some czero
       ∧ cell g 0 0 = Some 0.
Proof.
  destruct (mandelbrot_set_shape 0%float 3%float 0%float 3%float 2 2 max_iter)
    as (g & Hrun & _); [lia|lia|].
  assert (sample_at 0%float 3%float 0%float 3%float 2 2 0 0 = Some czero)
    as Hcv by (vm_compute; reflexivity).
  exists g. split; [done|]. split; [done|].
  rewrite (mandelbrot_set_cell _ _ _ _ _ _ _ _ _ _ _ Hrun Hcv).
  rewrite escape_value_bounded; [done|].
  intros j _. rewrite orbit_origin_binary64. vm_compute; reflexivity.
Qed.

(** The cell sampling 3+0j holds 0 for every [max_iter >= 1]: the first
    update, number 0, takes [z] to 3+0j, of magnitude 3. *)
Lemma three_holds_zero (max_iter : Z) :
  1 ≤ max_iter →
  ∃ g, mandelbrot_set 0%float 3%float 0%float 3%float 2 2 max_iter = Ok g
       ∧ sample_at 0%float 3%float 0%float 3%float 2 2 0 1
         = Some (Cplx 3%float 0%float)
       ∧ first_exceeds_at (Cplx 3%float 0%float) 0
       ∧ cell g 0 1 = Some 0.
Proof.
  intros Hm.
  destruct (mandelbrot_set_shape 0%float 3%float 0%float 3%float 2 2 max_iter)
    as (g & Hrun & _); [lia|lia|].
  assert (sample_at 0%float 3%float 0%float 3%float 2 2 0 1
          = Some (Cplx 3%float 0%float)) as Hcv by (vm_compute; reflexivity).
  assert (first_exceeds_at (Cplx 3%float 0%float) 0) as Hf.
  { split; [intros j Hj; lia | vm_compute; reflexivity]. }
  exists g. split; [done|]. split; [done|]. split; [done|].
  rewrite (mandelbrot_set_cell _ _ _ _ _ _ _ _ _ _ _ Hrun Hcv).
  by rewrite (escape_value_escapes _ _ 0) by (done || lia).
Qed.

Lemma three_holds_zero_witness :
  ∃ g, mandelbrot_set 0%float 3%float 0%float 3%float 2 2 7 = Ok g
       ∧ sample_at 0%float 3%float 0%float 3%float 2 2 0 1
         = Some (Cplx 3%float 0%float)
       ∧ first_exceeds_at (Cplx 3%float 0%float) 0
       ∧ cell g 0 1 = Some 0.
Proof. apply (three_holds_zero 7). lia. Defined.

(** * Further properties of [mandelbrot_set] *)

(** ** What a value says about the orbit *)

(** A value of the result read backwards: 0 means that the orbit stayed
    within magnitude 2 for all [max_iter] updates or exceeded it at the very
    first one; a value [v > 0] is below [max_iter] and update number [v] is
    the first after which the orbit exceeds 2. *)
Theorem value_determines_escape {F : Type} `{FloatOps F}
    (xmin xmax ymin ymax : F) (width height max_iter : Z)
    (g : grid Z) (r col : nat) (cv : complex F) (v : Z) :
  mandelbrot_set xmin xmax ymin ymax width height max_iter = Ok g →
  sample_at xmin xmax ymin ymax width height r col = Some cv →
  cell g r col = Some v →
  (v = 0 ∧ (stays_bounded cv (Z.to_nat max_iter)
            ∨ (0 < max_iter ∧ first_exceeds_at cv 0)))
  ∨ (0 < v < max_iter ∧ first_exceeds_at cv (Z.to_nat v)).
Proof.
  intros Hrun Hcv Hv.
  rewrite (mandelbrot_set_cell _ _ _ _ _ _ _ _ _ _ _ Hrun Hcv) in Hv.
  injection Hv as <-.
  destruct (bounded_or_escapes cv (Z.to_nat max_iter)) as [Hb|(k & Hk & Hf)].
  - left. split; [by apply escape_value_bounded|by left].
  - rewrite (escape_value_escapes cv max_iter k) by (done || lia).
    destruct k as [|k].
    + left. split; [done|]. right. split; [lia|done].
    + right. split; [lia|]. by rewrite Nat2Z.id.
Qed.

(** The binary64 run on [1, 2] x [0, 1], 2 x 2, [max_iter = 3]: cell (0, 0)
    holds 2, and update number 2 is the first to take 1+0j beyond 2. *)
Lemma value_determines_escape_witness :
  (2 = 0 ∧ (stays_bounded (Cplx 1%float 0%float) (Z.to_nat 3)
            ∨ (0 < 3 ∧ first_exceeds_at (Cplx 1%float 0%float) 0)))
  ∨ (0 < 2 < 3 ∧ first_exceeds_at (Cplx 1%float 0%float) (Z.to_nat 2)).
Proof.
  apply (value_determines_escape 1%float 2%float 0%float 1%float 2 2 3
           [[2; 1]; [1; 0]] 0 0 (Cplx 1%float 0%float) 2);
    vm_compute; reflexivity.
Defined.

(** ** What the mask means *)

Section MaskInvariant.
Context {F : Type} `{FloatOps F}.
Implicit Types (c : grid (complex F)) (s : state F) (p : point F).

Lemma point_step_mask_meaning cv i p :
  (if pactive p then ptime p = 0 else escaped (pz p) = true) →
  (if pactive (point_step cv i p)
   then ptime (point_step cv i p) = 0
        ∧ escaped (pz (point_step cv i p)) = false
   else escaped (pz (point_step cv i p)) = true).
Proof.
  destruct p as [zv t [|]]; intros Hp.
  - rewrite point_step_active. simpl in *. subst t.
    by destruct (escaped (cadd (csquare zv) cv)) eqn:He.
  - by rewrite point_step_inactive.
Qed.

Lemma reachable_point_mask_meaning c s r col p :
  reachable c s → point_at s r col = Some p →
  if pactive p then ptime p = 0 else escaped (pz p) = true.
Proof.
  intros Hs. revert p. induction Hs as [|i s Hs IH]; intros p Hp.
  - rewrite point_at_init in Hp.
    destruct (cell c r col); simpl in Hp; [|done]. by injection Hp as <-.
  - rewrite point_at_body in Hp.
    destruct (cell c r col) as [cv|]; simpl in Hp; [|done].
    destruct (point_at s r col) as [p0|]; simpl in Hp; [|done].
    assert (p = point_step cv i p0) as -> by congruence.
    pose proof (point_step_mask_meaning cv i p0 (IH p0 eq_refl)) as Hstep.
    destruct (pactive (point_step cv i p0)); [by destruct Hstep|done].
Qed.

End MaskInvariant.

(** In every state the loop can reach, a cell whose [mask] entry is true
    still holds 0 in [div_time], and a cell whose [mask] entry is false has a
    [z] for which the test [np.abs(z) > 2.0] is true; after a pass of the
    body, moreover, every cell whose [mask] entry is true has a [z] for which
    that test is false (a magnitude of at most 2, or a NaN, which no
    comparison finds greater). *)
Theorem mask_marks_the_cells_within_radius {F : Type} `{FloatOps F}
    (c : grid (complex F)) (s : state F) (i : Z) (r col : nat) :
  reachable c s →
  (∀ m zv t,
     cell (mask s) r col = Some m → cell (z s) r col = Some zv →
     cell (div_time s) r col = Some t →
     if m then t = 0 else escaped zv = true)
  ∧ (∀ zv,
       cell (mask (body c i s)) r col = Some true →
       cell (z (body c i s)) r col = Some zv →
       escaped zv = false).
Proof.
  intros Hs. split.
  - intros m zv t Hm Hz Ht.
    apply (reachable_point_mask_meaning c s r col (Point zv t m) Hs).
    by apply point_at_Some.
  - intros zv Hm Hz.
    destruct (well_shaped_body c i s (reachable_well_shaped c s Hs))
      as (_ & Ht & _).
    destruct (cell_is_Some_shape (z (body c i s)) (div_time (body c i s)) r col)
      as [t Htc]; [|by eauto|].
    { destruct (well_shaped_body c i s (reachable_well_shaped c s Hs))
        as (-> & -> & _). done. }
    assert (point_at (body c i s) r col = Some (Point zv t true)) as Hp
      by by apply point_at_Some.
    rewrite point_at_body in Hp.
    destruct (cell c r col) as [cv|]; simpl in Hp; [|done].
    destruct (point_at s r col) as [p0|] eqn:Hp0; simpl in Hp; [|done].
    assert (point_step cv i p0 = Point zv t true) as Hq by congruence.
    pose proof (point_step_mask_meaning cv i p0
                  (reachable_point_mask_meaning c s r col p0 Hs Hp0)) as Hstep.
    rewrite Hq in Hstep. simpl in Hstep. by destruct Hstep.
Qed.

(** In the binary64 run on [1, 2] x [0, 1], 2 x 2, after the first pass. *)
Lemma mask_marks_the_cells_within_radius_witness :
  let c := sample_grid [1%float; 2%float] [0%float; 1%float] in
  let s := body c 0 (init c) in
  (∀ m zv t,
     cell (mask s) 1 1 = Some m → cell (z s) 1 1 = Some zv →
     cell (div_time s) 1 1 = Some t →
     if m then t = 0 else escaped zv = true)
  ∧ (∀ zv,
       cell (mask (body c 1 s)) 1 1 = Some true →
       cell (z (body c 1 s)) 1 1 = Some zv →
       escaped zv = false).
Proof.
  intros c s.
  apply (mask_marks_the_cells_within_radius c s 1 1 1).
  apply reachable_body, reachable_init.
Defined.

(** ** The far edges of the grid *)

Lemma linspace_last {F : Type} `{FloatOps F} (lo hi : F) (num : Z) (l : list F) :
  2 ≤ num → linspace lo hi num = Ok l →
  l !! (Z.to_nat num - 1)%nat = Some hi.
Proof.
  intros Hn Hl.
  destruct (linspace_Ok lo hi num) as (l' & Hl' & Hlen); [lia|].
  assert (l' = l) as -> by congruence. clear Hl'.
  unfold linspace in Hl.
  destruct (Z.ltb_spec num 0) as [|_]; [lia|].
  destruct (Z.ltb_spec 1 num) as [_|]; [|lia].
  injection Hl as Hl. rewrite <- Hl in *. unfold set_last in *.
  rewrite length_insert in Hlen.
  rewrite list_lookup_insert, Hlen.
  case_decide as Hd; [done|]. exfalso. apply Hd.
  split; [lia|]. lia.
Qed.

(** With at least two columns the last column samples [x_max] itself, and
    with at least two rows the last row samples [y_max] itself: the far
    bounds are stored, not computed. *)
Theorem far_edges_sample_the_upper_bounds {F : Type} `{FloatOps F}
    (xmin xmax ymin ymax : F) (width height : Z) (r1 r2 : list F) :
  linspace xmin xmax width = Ok r1 →
  linspace ymin ymax height = Ok r2 →
  (2 ≤ width → ∀ r y, r2 !! r = Some y →
     sample_at xmin xmax ymin ymax width height r (Z.to_nat width - 1)
     = Some (sample xmax y))
  ∧ (2 ≤ height → ∀ col x, r1 !! col = Some x →
       sample_at xmin xmax ymin ymax width height (Z.to_nat height - 1) col
       = Some (sample x ymax)).
Proof.
  intros Hr1 Hr2. unfold sample_at. rewrite Hr1, Hr2. split.
  - intros Hw r y Hy. rewrite cell_sample_grid, Hy. simpl.
    by rewrite (linspace_last xmin xmax width r1 Hw Hr1).
  - intros Hh col x Hx. rewrite cell_sample_grid.
    rewrite (linspace_last ymin ymax height r2 Hh Hr2). simpl.
    by rewrite Hx.
Qed.

Lemma far_edges_sample_the_upper_bounds_witness :
  (2 ≤ 3 → ∀ r y, [0%float; 1%float] !! r = Some y →
     sample_at 0%float 0.5%float 0%float 1%float 3 2 r (Z.to_nat 3 - 1)
     = Some (sample 0.5%float y))
  ∧ (2 ≤ 2 → ∀ col x, [0%float; 0.25%float; 0.5%float] !! col = Some x →
       sample_at 0%float 0.5%float 0%float 1%float 3 2 (Z.to_nat 2 - 1) col
       = Some (sample x 1%float)).
Proof.
  apply (far_edges_sample_the_upper_bounds 0%float 0.5%float 0%float 1%float
           3 2); vm_compute; reflexivity.
Defined.

(** * Properties of visual.py *)

(** ** generate_data: the loop over the array *)

Section GenerateData.
Context {F : Type} `{FloatOps F}.
Implicit Types (func : vec3 F → vec3 F) (dt : F) (traj : list (vec3 F))
  (cur : vec3 F).

Lemma length_rk4_rows func dt n (x0 : vec3 F) : length (rk4_rows func dt n x0) = n.
Proof.
  revert x0. induction n as [|n IH]; intros x0; simpl; [done|]. by rewrite IH.
Qed.

Lemma rk4_rows_succ func dt n (x0 : vec3 F) i v :
  rk4_rows func dt n x0 !! i = Some v → (S i < n)%nat →
  rk4_rows func dt n x0 !! S i = Some (rk4_step func dt v).
Proof.
  revert x0 i. induction n as [|n IH]; intros x0 i Hv Hi; [lia|].
  destruct i as [|i]; simpl in *.
  - injection Hv as <-. destruct n as [|n]; [lia|done].
  - apply IH; [done|lia].
Qed.

(** The loop never reads or writes outside the array, and fills it with the
    successive steps. *)
Lemma rk4_loop_app func dt n pre cur rest :
  (n ≤ length rest)%nat →
  rk4_loop func dt n (length pre) (pre ++ cur :: rest)
  = Done (pre ++ rk4_rows func dt (S n) cur ++ drop n rest).
Proof.
  revert pre cur rest. induction n as [|n IH]; intros pre cur rest Hn.
  - by rewrite drop_0.
  - destruct rest as [|x rest]; simpl in Hn; [lia|].
    cbn [rk4_loop]. unfold get_row.
    rewrite list_lookup_middle by done. simpl.
    unfold set_row. rewrite decide_True
      by (rewrite length_app; simpl; lia). simpl.
    replace (<[(length pre + 1)%nat := rk4_step func dt cur]>
               (pre ++ cur :: x :: rest))
      with ((pre ++ [cur]) ++ rk4_step func dt cur :: rest).
    2:{ rewrite <- (assoc_L (++)). simpl.
        rewrite insert_app_r_alt by lia.
        by replace (length pre + 1 - length pre)%nat with 1%nat by lia. }
    replace (length pre + 1)%nat with (length (pre ++ [cur]))
      by (rewrite length_app; simpl; lia).
    rewrite IH by lia. rewrite <- (assoc_L (++)). done.
Qed.

Lemma generate_data_Done func initial_state steps dt (x0 : vec3 F) :
  1 ≤ steps → broadcast3 initial_state = Done x0 →
  generate_data func initial_state steps dt
  = Done (rk4_rows func dt (Z.to_nat steps) x0).
Proof.
  intros Hs Hx. unfold generate_data, np_zeros3.
  destruct (Z.ltb_spec steps 0) as [|_]; [lia|]. simpl.
  replace (Z.to_nat steps) with (S (Z.to_nat (steps - 1))) by lia.
  simpl. rewrite Hx. simpl.
  pose proof (rk4_loop_app func dt (Z.to_nat (steps - 1)) [] x0
                (replicate (Z.to_nat (steps - 1)) (Vec3 f0 f0 f0))) as Hloop.
  simpl in Hloop. rewrite Hloop by (rewrite length_replicate; lia).
  rewrite drop_ge by (rewrite length_replicate; lia).
  by rewrite app_nil_r.
Qed.

Lemma generate_data_inv func initial_state steps dt traj :
  generate_data func initial_state steps dt = Done traj →
  1 ≤ steps
  ∧ ∃ x0, broadcast3 initial_state = Done x0
          ∧ traj = rk4_rows func dt (Z.to_nat steps) x0.
Proof.
  intros Hrun.
  assert (1 ≤ steps) as Hs.
  { unfold generate_data, np_zeros3 in Hrun.
    destruct (Z.ltb_spec steps 0) as [|Hpos]; [done|]. simpl in Hrun.
    destruct (decide (steps = 0)) as [->|]; [done|lia]. }
  split; [done|].
  destruct (broadcast3 initial_state) as [x0|e] eqn:Hx.
  - exists x0. split; [done|].
    rewrite (generate_data_Done _ _ _ _ x0 Hs Hx) in Hrun. congruence.
  - unfold generate_data, np_zeros3 in Hrun.
    destruct (Z.ltb_spec steps 0) as [|_]; [lia|]. simpl in Hrun.
    replace (Z.to_nat steps) with (S (Z.to_nat (steps - 1))) in Hrun by lia.
    simpl in Hrun. rewrite Hx in Hrun. done.
Qed.

End GenerateData.

(** What [generate_data] returns or raises, on every input: a negative
    [steps] is refused by [np.zeros]; [steps = 0] fails on [traj[0]]; an
    initial state of neither three entries nor one cannot be broadcast;
    otherwise the function returns [steps] rows, the initial state followed
    by the successive steps, and the loop never leaves the array. *)
Theorem generate_data_outcome {F : Type} `{FloatOps F}
    (func : vec3 F → vec3 F) (initial_state : list F) (steps : Z) (dt : F) :
  generate_data func initial_state steps dt =
  if steps <? 0 then Fails NegativeDimensions
  else if steps =? 0 then Fails (IndexOutOfBounds 0 0)
  else match initial_state with
       | [a; b; c] => Done (rk4_rows func dt (Z.to_nat steps) (Vec3 a b c))
       | [a] => Done (rk4_rows func dt (Z.to_nat steps) (Vec3 a a a))
       | _ => Fails (CannotBroadcast (length initial_state))
       end.
Proof.
  destruct (Z.ltb_spec steps 0) as [Hneg|Hpos].
  { unfold generate_data, np_zeros3.
    by destruct (Z.ltb_spec steps 0) as [_|]; [|lia]. }
  destruct (Z.eqb_spec steps 0) as [->|Hnz]; [done|].
  destruct (broadcast3 initial_state) as [x0|e] eqn:Hx.
  - rewrite (generate_data_Done func initial_state steps dt x0) by (lia || done).
    destruct initial_state as [|a [|b [|c [|d l]]]]; simpl in Hx;
      try discriminate; by injection Hx as <-.
  - unfold generate_data, np_zeros3.
    destruct (Z.ltb_spec steps 0) as [|_]; [lia|]. simpl.
    replace (Z.to_nat steps) with (S (Z.to_nat (steps - 1))) by lia.
    simpl. rewrite Hx. simpl.
    destruct initial_state as [|a [|b [|c [|d l]]]]; simpl in Hx;
      try discriminate; by injection Hx as <-.
Qed.

(** A returned trajectory has [steps] rows, starts with the initial state,
    and each row after the first is the Runge-Kutta step of the row before
    it. *)
Theorem generate_data_rows {F : Type} `{FloatOps F}
    (func : vec3 F → vec3 F) (initial_state : list F) (steps : Z) (dt : F)
    (traj : list (vec3 F)) :
  generate_data func initial_state steps dt = Done traj →
  1 ≤ steps
  ∧ length traj = Z.to_nat steps
  ∧ (∃ x0, broadcast3 initial_state = Done x0 ∧ traj !! 0%nat = Some x0)
  ∧ ∀ i v, traj !! i = Some v → (S i < length traj)%nat →
           traj !! S i = Some (rk4_step func dt v).
Proof.
  intros Hrun.
  destruct (generate_data_inv func initial_state steps dt traj Hrun)
    as (Hs & x0 & Hx & ->).
  split; [lia|]. rewrite length_rk4_rows. split; [done|]. split.
  - exists x0. split; [done|].
    replace (Z.to_nat steps) with (S (Z.to_nat (steps - 1))) by lia. done.
  - intros i v Hv Hi. by apply rk4_rows_succ.
Qed.

(** Three steps of the Rössler system over the rationals. *)
Lemma generate_data_rows_witness :
  ∃ traj : list (vec3 Qc),
    generate_data rossler_default [Q2Qc (1 # 10); Q2Qc 0; Q2Qc 0] 3
      (Q2Qc (1 # 100)) = Done traj
    ∧ 1 ≤ 3
    ∧ length traj = Z.to_nat 3
    ∧ (∃ x0, broadcast3 [Q2Qc (1 # 10); Q2Qc 0; Q2Qc 0] = Done x0
             ∧ traj !! 0%nat = Some x0)
    ∧ ∀ i v, traj !! i = Some v → (S i < length traj)%nat →
             traj !! S i = Some (rk4_step rossler_default (Q2Qc (1 # 100)) v).
Proof.
  eexists. split; [by apply generate_data_Done|].
  apply (generate_data_rows rossler_default
           [Q2Qc (1 # 10); Q2Qc 0; Q2Qc 0] 3 (Q2Qc (1 # 100))).
  by apply generate_data_Done.
Defined.

(** ** Exact arithmetic: what the integration preserves *)

Section ExactIntegration.
Context {F : Type} `{FloatOps F} `{!ExactLaws F}.
Implicit Types (func : vec3 F → vec3 F) (dt : F) (u v : vec3 F).

Add Field exact_field_rows : exact_field.

Lemma vec3_eq u v : vx u = vx v → vy u = vy v → vz u = vz v → u = v.
Proof. destruct u, v; simpl. by intros -> -> ->. Qed.

Ltac rows_field :=
  apply vec3_eq; simpl; field; apply of_int_nonzero; lia.

(** *** Equilibria, and a zero time step *)

Lemma rk4_step_equilibrium func dt v :
  func v = Vec3 f0 f0 f0 → rk4_step func dt v = v.
Proof.
  intros Hv. unfold rk4_step.
  assert (vadd v (vover (vmul (Vec3 f0 f0 f0) dt) 2) = v) as Hhalf
    by rows_field.
  assert (vadd v (vmul (Vec3 f0 f0 f0) dt) = v) as Hfull
    by (apply vec3_eq; simpl; ring).
  rewrite Hv, Hhalf, Hv, Hhalf, Hv, Hfull, Hv. rows_field.
Qed.

Lemma rk4_step_zero_dt func v : rk4_step func f0 v = v.
Proof. unfold rk4_step. rows_field. Qed.

Lemma rk4_rows_stationary func dt n v :
  rk4_step func dt v = v → rk4_rows func dt n v = replicate n v.
Proof.
  intros Hv. induction n as [|n IH]; simpl; [done|]. by rewrite Hv, IH.
Qed.

Lemma lorenz_origin sigma rho beta :
  lorenz sigma rho beta (Vec3 f0 f0 f0) = Vec3 f0 f0 f0.
Proof. apply vec3_eq; simpl; ring. Qed.

Lemma chen_origin a b c : chen a b c (Vec3 f0 f0 f0) = Vec3 f0 f0 f0.
Proof. apply vec3_eq; simpl; ring. Qed.

(** *** The mirror image *)

Lemma rk4_step_mirror func dt v :
  (∀ u, func (mirror u) = mirror (func u)) →
  rk4_step func dt (mirror v) = mirror (rk4_step func dt v).
Proof.
  intros Hf. unfold rk4_step.
  assert (∀ u k (n : Z), 0 < n →
            vadd (mirror u) (vover (vmul (mirror k) dt) n)
            = mirror (vadd u (vover (vmul k dt) n))) as Hhalf.
  { intros u k n Hn. apply vec3_eq; simpl; try field;
      by apply of_int_nonzero. }
  assert (∀ u k, vadd (mirror u) (vmul (mirror k) dt)
                 = mirror (vadd u (vmul k dt))) as Hfull.
  { intros u k. apply vec3_eq; simpl; ring. }
  rewrite Hf, Hhalf, Hf, Hhalf, Hf, Hfull, Hf by lia.
  rows_field.
Qed.

Lemma rk4_rows_mirror func dt n v :
  (∀ u, func (mirror u) = mirror (func u)) →
  rk4_rows func dt n (mirror v) = mirror <$> rk4_rows func dt n v.
Proof.
  intros Hf. revert v. induction n as [|n IH]; intros v; simpl; [done|].
  by rewrite rk4_step_mirror, IH.
Qed.

Lemma lorenz_mirror sigma rho beta u :
  lorenz sigma rho beta (mirror u) = mirror (lorenz sigma rho beta u).
Proof. apply vec3_eq; simpl; ring. Qed.

Lemma chen_mirror a b c u : chen a b c (mirror u) = mirror (chen a b c u).
Proof. apply vec3_eq; simpl; ring. Qed.

(** *** The z axis *)

Lemma rk4_step_on_z_axis func dt v :
  (∀ u, on_z_axis u → on_z_axis (func u)) →
  on_z_axis v → on_z_axis (rk4_step func dt v).
Proof.
  intros Hf Hv. unfold rk4_step.
  assert (∀ u k (n : Z), 0 < n → on_z_axis u → on_z_axis k →
            on_z_axis (vadd u (vover (vmul k dt) n))) as Hhalf.
  { intros u k n Hn [Hx Hy] [Hkx Hky]. unfold on_z_axis. simpl.
    rewrite Hx, Hy, Hkx, Hky. split; field; by apply of_int_nonzero. }
  assert (∀ u k, on_z_axis u → on_z_axis k →
            on_z_axis (vadd u (vmul k dt))) as Hfull.
  { intros u k [Hx Hy] [Hkx Hky]. unfold on_z_axis. simpl.
    rewrite Hx, Hy, Hkx, Hky. split; ring. }
  assert (on_z_axis (func v)) as H1 by by apply Hf.
  assert (on_z_axis (func (vadd v (vover (vmul (func v) dt) 2)))) as H2
    by (apply Hf, Hhalf; (lia || done)).
  assert (on_z_axis (func (vadd v (vover (vmul
            (func (vadd v (vover (vmul (func v) dt) 2))) dt) 2)))) as H3
    by (apply Hf, Hhalf; (lia || done)).
  match goal with |- on_z_axis (vadd v (vover (vmul
      (vadd (vadd (vadd ?k1 (vtimes 2 ?k2)) (vtimes 2 ?k3)) ?k4) dt) 6)) =>
    assert (on_z_axis k4) as H4 by (apply Hf, Hfull; done);
    destruct H1 as [H1x H1y], H2 as [H2x H2y], H3 as [H3x H3y],
      H4 as [H4x H4y], Hv as [Hvx Hvy]
  end.
  unfold on_z_axis. simpl. rewrite H1x, H1y, H2x, H2y, H3x, H3y, H4x, H4y,
    Hvx, Hvy.
  split; field; apply of_int_nonzero; lia.
Qed.

Lemma rk4_rows_on_z_axis func dt n v :
  (∀ u, on_z_axis u → on_z_axis (func u)) →
  on_z_axis v → Forall on_z_axis (rk4_rows func dt n v).
Proof.
  intros Hf. revert v. induction n as [|n IH]; intros v Hv; simpl.
  - constructor.
  - constructor; [done|]. by apply IH, rk4_step_on_z_axis.
Qed.

Lemma lorenz_on_z_axis sigma rho beta u :
  on_z_axis u → on_z_axis (lorenz sigma rho beta u).
Proof.
  intros [Hx Hy]. unfold on_z_axis. simpl. rewrite Hx, Hy. split; ring.
Qed.

Lemma chen_on_z_axis a b c u : on_z_axis u → on_z_axis (chen a b c u).
Proof.
  intros [Hx Hy]. unfold on_z_axis. simpl. rewrite Hx, Hy. split; ring.
Qed.

Lemma aizawa_on_z_axis `{PowOps F} a b c d e f u :
  on_z_axis u → on_z_axis (aizawa a b c d e f u).
Proof.
  intros [Hx Hy]. unfold on_z_axis. simpl. rewrite Hx, Hy. split; ring.
Qed.

(** *** A constant field *)

Lemma rk4_step_constant (k : vec3 F) dt v :
  of_int 1 = f1 → rk4_step (λ _, k) dt v = vadd v (vmul k dt).
Proof.
  intros H1. unfold rk4_step.
  assert (of_int 2 = fadd f1 f1) as H2
    by (by rewrite <- H1, <- of_int_add).
  assert (of_int 6 = fadd (fadd (of_int 2) (of_int 2)) (of_int 2)) as H6
    by (by rewrite <- !of_int_add).
  assert (∀ a d : F,
            fdiv (fmul (fadd (fadd (fadd a (fmul (of_int 2) a))
                                   (fmul (of_int 2) a)) a) d) (of_int 6)
            = fmul a d) as Hweights.
  { intros a d.
    assert (fadd (fadd (fadd a (fmul (of_int 2) a)) (fmul (of_int 2) a)) a
            = fmul (of_int 6) a) as -> by (rewrite H6, H2; ring).
    field. apply of_int_nonzero. lia. }
  apply vec3_eq; simpl; by rewrite Hweights.
Qed.

End ExactIntegration.

(** ** Trajectories in exact arithmetic *)

(** A trajectory started at an equilibrium of [func], or integrated with
    [dt = 0], never moves: every row is the initial state. *)
Theorem stationary_trajectory {F : Type} `{FloatOps F} `{!ExactLaws F}
    (func : vec3 F → vec3 F) (initial_state : list F) (steps : Z) (dt : F)
    (x0 : vec3 F) :
  1 ≤ steps →
  broadcast3 initial_state = Done x0 →
  func x0 = Vec3 f0 f0 f0 ∨ dt = f0 →
  generate_data func initial_state steps dt
  = Done (replicate (Z.to_nat steps) x0).
Proof.
  intros Hs Hx Hstill.
  rewrite (generate_data_Done func initial_state steps dt x0 Hs Hx).
  f_equal. apply rk4_rows_stationary.
  destruct Hstill as [Hf| ->];
    [by apply rk4_step_equilibrium | apply rk4_step_zero_dt].
Qed.

(** Over the rationals: the Rössler system, which has no equilibrium at its
    starting point, integrated with [dt = 0]. *)
Lemma stationary_trajectory_witness :
  generate_data rossler_default [Q2Qc (1 # 10); Q2Qc 0; Q2Qc 0] 4 (Q2Qc 0)
  = Done (replicate (Z.to_nat 4) (Vec3 (Q2Qc (1 # 10)) (Q2Qc 0) (Q2Qc 0))).
Proof.
  apply (stationary_trajectory rossler_default
           [Q2Qc (1 # 10); Q2Qc 0; Q2Qc 0] 4 (Q2Qc 0)).
  - lia.
  - reflexivity.
  - right. reflexivity.
Defined.

(** The origin is an equilibrium of the Lorenz and of the Chen system,
    whatever their parameters: a trajectory started there stays there. *)
Theorem origin_is_an_equilibrium {F : Type} `{FloatOps F} `{!ExactLaws F}
    (sigma rho : Z) (beta : F) (a b c : Z) (steps : Z) (dt : F) :
  1 ≤ steps →
  generate_data (lorenz sigma rho beta) [f0; f0; f0] steps dt
  = Done (replicate (Z.to_nat steps) (Vec3 f0 f0 f0))
  ∧ generate_data (chen a b c) [f0; f0; f0] steps dt
    = Done (replicate (Z.to_nat steps) (Vec3 f0 f0 f0)).
Proof.
  intros Hs.
  split; rewrite (generate_data_Done _ _ steps dt (Vec3 f0 f0 f0)) by done;
    f_equal; apply rk4_rows_stationary, rk4_step_equilibrium;
    [apply lorenz_origin | apply chen_origin].
Qed.

Lemma origin_is_an_equilibrium_witness :
  generate_data (lorenz 10 28 (Q2Qc (8 # 3))) [Q2Qc 0; Q2Qc 0; Q2Qc 0] 5
    (Q2Qc (1 # 100))
  = Done (replicate (Z.to_nat 5) (Vec3 (Q2Qc 0) (Q2Qc 0) (Q2Qc 0)))
  ∧ generate_data (chen 40 3 28) [Q2Qc 0; Q2Qc 0; Q2Qc 0] 5 (Q2Qc (1 # 100))
    = Done (replicate (Z.to_nat 5) (Vec3 (Q2Qc 0) (Q2Qc 0) (Q2Qc 0))).
Proof.
  refine (origin_is_an_equilibrium 10 28 (Q2Qc (8 # 3)) 40 3 28 5
            (Q2Qc (1 # 100)) _).
  lia.
Defined.

(** The Lorenz and the Chen system are symmetric under
    [(x, y, z) -> (-x, -y, z)], and the integration keeps the symmetry: the
    trajectory from the mirrored start is the mirrored trajectory, row by
    row. *)
Theorem mirrored_start_gives_mirrored_trajectory
    {F : Type} `{FloatOps F} `{!ExactLaws F}
    (sigma rho : Z) (beta : F) (a b c : Z) (x y z : F) (steps : Z) (dt : F) :
  1 ≤ steps →
  (∃ traj,
     generate_data (lorenz sigma rho beta) [x; y; z] steps dt = Done traj
     ∧ generate_data (lorenz sigma rho beta) [fopp x; fopp y; z] steps dt
       = Done (mirror <$> traj))
  ∧ (∃ traj,
       generate_data (chen a b c) [x; y; z] steps dt = Done traj
       ∧ generate_data (chen a b c) [fopp x; fopp y; z] steps dt
         = Done (mirror <$> traj)).
Proof.
  intros Hs. split; eexists; (split; [by apply generate_data_Done|]);
    rewrite (generate_data_Done _ _ steps dt (mirror (Vec3 x y z))) by done;
    f_equal; apply rk4_rows_mirror; intros u;
    [apply lorenz_mirror | apply chen_mirror].
Qed.

Lemma mirrored_start_gives_mirrored_trajectory_witness :
  (∃ traj,
     generate_data (lorenz 10 28 (Q2Qc (8 # 3)))
       [Q2Qc (1 # 10); Q2Qc 0; Q2Qc 0] 3 (Q2Qc (1 # 100)) = Done traj
     ∧ generate_data (lorenz 10 28 (Q2Qc (8 # 3)))
         [fopp (Q2Qc (1 # 10)); fopp (Q2Qc 0); Q2Qc 0] 3 (Q2Qc (1 # 100))
       = Done (mirror <$> traj))
  ∧ (∃ traj,
       generate_data (chen 40 3 28)
         [Q2Qc (1 # 10); Q2Qc 0; Q2Qc 0] 3 (Q2Qc (1 # 100)) = Done traj
       ∧ generate_data (chen 40 3 28)
           [fopp (Q2Qc (1 # 10)); fopp (Q2Qc 0); Q2Qc 0] 3 (Q2Qc (1 # 100))
         = Done (mirror <$> traj)).
Proof.
  refine (mirrored_start_gives_mirrored_trajectory 10 28 (Q2Qc (8 # 3))
            40 3 28 (Q2Qc (1 # 10)) (Q2Qc 0) (Q2Qc 0) 3 (Q2Qc (1 # 100)) _).
  lia.
Defined.

(** The z axis is invariant for the Lorenz, the Chen and the Aizawa system:
    a trajectory started at [(0, 0, z)] has [x = 0] and [y = 0] in every
    row. *)
Theorem z_axis_is_invariant {F : Type} `{FloatOps F} `{PowOps F}
    `{!ExactLaws F} (func : vec3 F → vec3 F)
    (sigma rho : Z) (beta : F) (a b c : Z) (p q r s t u : F)
    (z0 : F) (steps : Z) (dt : F) (traj : list (vec3 F)) :
  func = lorenz sigma rho beta ∨ func = chen a b c
    ∨ func = aizawa p q r s t u →
  generate_data func [f0; f0; z0] steps dt = Done traj →
  Forall on_z_axis traj.
Proof.
  intros Hfunc Hrun.
  destruct (generate_data_inv func _ steps dt traj Hrun)
    as (_ & x0 & Hx & ->).
  injection Hx as <-.
  apply rk4_rows_on_z_axis; [|done].
  intros v Hv. destruct Hfunc as [->|[->| ->]];
    [by apply lorenz_on_z_axis | by apply chen_on_z_axis
    | by apply aizawa_on_z_axis].
Qed.

(** Over the rationals: three steps of the Aizawa system from (0, 0, 1/2). *)
Lemma z_axis_is_invariant_witness :
  ∃ traj : list (vec3 Qc),
    generate_data aizawa_default [Q2Qc 0; Q2Qc 0; Q2Qc (1 # 2)] 3
      (Q2Qc (1 # 100)) = Done traj
    ∧ Forall on_z_axis traj.
Proof.
  eexists. split; [by apply generate_data_Done|].
  apply (z_axis_is_invariant aizawa_default 10 28 (Q2Qc (8 # 3)) 40 3 28
           (lit 95 100) (lit 7 10) (lit 6 10) (lit 35 10) (lit 25 100)
           (lit 1 10) (Q2Qc (1 # 2)) 3 (Q2Qc (1 # 100))).
  - right. right. reflexivity.
  - by apply generate_data_Done.
Defined.

(** The weights 1, 2, 2, 1 over 6: a field that is the same vector [k]
    everywhere moves every row by exactly [k * dt]. *)
Theorem constant_field_is_integrated_exactly
    {F : Type} `{FloatOps F} `{!ExactLaws F}
    (k : vec3 F) (initial_state : list F) (steps : Z) (dt : F)
    (traj : list (vec3 F)) (i : nat) (v : vec3 F) :
  of_int 1 = f1 →
  generate_data (λ _, k) initial_state steps dt = Done traj →
  traj !! i = Some v → (S i < length traj)%nat →
  traj !! S i = Some (vadd v (vmul k dt)).
Proof.
  intros H1 Hrun Hv Hi.
  destruct (generate_data_inv _ _ steps dt traj Hrun) as (_ & x0 & _ & ->).
  rewrite length_rk4_rows in Hi.
  rewrite (rk4_rows_succ _ _ _ _ _ _ Hv Hi).
  by rewrite rk4_step_constant.
Qed.

Lemma constant_field_is_integrated_exactly_witness :
  rk4_rows (λ _, Vec3 (Q2Qc 1) (Q2Qc 2) (Q2Qc 3)) (Q2Qc (1 # 10)) (Z.to_nat 3)
    (Vec3 (Q2Qc 0) (Q2Qc 0) (Q2Qc 0)) !! 1%nat
  = Some (vadd (Vec3 (Q2Qc 0) (Q2Qc 0) (Q2Qc 0))
               (vmul (Vec3 (Q2Qc 1) (Q2Qc 2) (Q2Qc 3)) (Q2Qc (1 # 10)))).
Proof.
  apply (constant_field_is_integrated_exactly
           (Vec3 (Q2Qc 1) (Q2Qc 2) (Q2Qc 3)) [Q2Qc 0; Q2Qc 0; Q2Qc 0] 3
           (Q2Qc (1 # 10)) _ 0 (Vec3 (Q2Qc 0) (Q2Qc 0) (Q2Qc 0))).
  - reflexivity.
  - by apply generate_data_Done.
  - reflexivity.
  - simpl. lia.
Defined.

(** ** The frames of the animation *)

(** With [frames = steps // loop_speed] and [len(data) = steps], every frame
    the animation delivers passes the test [current_step < len(data)] and
    draws the first [frame * loop_speed] rows; at least the last
    [loop_speed] rows of the trajectory are never drawn. *)
Theorem every_frame_draws_a_proper_prefix {A : Type}
    (loop_speed frame : Z) (data : list A) :
  0 < loop_speed →
  0 ≤ frame < Z.of_nat (length data) / loop_speed →
  update_rows loop_speed frame data
  = Some (take (Z.to_nat (frame * loop_speed)) data)
  ∧ frame * loop_speed + loop_speed ≤ Z.of_nat (length data).
Proof.
  intros Hls [Hlo Hhi].
  assert (frame * loop_speed + loop_speed ≤ Z.of_nat (length data)) as Hle.
  { pose proof (Z.mul_div_le (Z.of_nat (length data)) loop_speed Hls). nia. }
  split; [|done]. unfold update_rows, py_prefix.
  destruct (Z.ltb_spec (frame * loop_speed) (Z.of_nat (length data)))
    as [_|]; [|lia].
  destruct (Z.ltb_spec (frame * loop_speed) 0) as [|_]; [nia|done].
Qed.

Lemma every_frame_draws_a_proper_prefix_witness :
  update_rows 2 1 [10; 20; 30; 40; 50]
  = Some (take (Z.to_nat (1 * 2)) [10; 20; 30; 40; 50])
  ∧ 1 * 2 + 2 ≤ Z.of_nat (length [10; 20; 30; 40; 50]).
Proof.
  apply (every_frame_draws_a_proper_prefix 2 1 [10; 20; 30; 40; 50]).
  - lia.
  - vm_compute. split; [discriminate | reflexivity].
Defined.
